(** * OSD lifecycle reconciliation: the storage event handler of charm-microceph

    A shallow embedding of [src/storage.py] (class [StorageHandler]) and
    the properties of its attach and detach handlers.

    The handler keeps a per-unit dictionary [osd_data] (OSD number to
    record, or to [None] once the OSD is gone), talks to the MicroCeph
    backend through the [microceph] module and to Juju through the
    [storage-get] and [storage-list] hook tools.  The backend, the hook
    tools and the JSON decoder are collaborators outside of this file:
    they are taken as an environment ([Env]) over an abstract world.
    Python exceptions are values of [exn]; a method is a function from
    the handler state to a result and the state it leaves behind, so
    that mutations made before a raise are kept, as in Python. *)

From Stdlib Require Import ZArith List String Ascii Bool Lia.
From Stdlib Require Import DecimalString.
Import ListNotations.
Local Open Scope string_scope.
Local Open Scope Z_scope.

(** ** Python values and exceptions *)

(** What [json.loads] can return (numbers restricted to integers). *)
#[local] Unset Elimination Schemes.
Inductive json : Type :=
| JNull
| JBool (b : bool)
| JNum (n : Z)
| JStr (s : string)
| JList (l : list json)
| JDict (kv : list (string * json)).
#[local] Set Elimination Schemes.

(** The exceptions that travel through [storage.py]. *)
Inductive exn : Type :=
| CalledProcessError (stderr : string)   (* subprocess: non-zero exit *)
| TimeoutExpired                         (* subprocess: timeout=180 hit *)
| OSError (errno : Z)
| ValueError                             (* json.JSONDecodeError is one *)
| TypeError
| AttributeError
| KeyError (key : string)
| RetryError                             (* tenacity: attempts exhausted *)
| BlockedExceptionError (msg : string).  (* sunbeam_guard *)

Inductive result (A : Type) : Type :=
| Ok (a : A)
| Raise (e : exn).
Arguments Ok {A} a.
Arguments Raise {A} e.

Definition ENOENT : Z := 2.

(** [s.split("/")[0]]: the text before the first slash, all of [s] when
    it has none. *)
Fixpoint split_head (s : string) : string :=
  match s with
  | EmptyString => EmptyString
  | String c s' => if Ascii.eqb c "/" then EmptyString else String c (split_head s')
  end.

(** [needle in hay] on two [str]: substring test. *)
Fixpoint str_in (needle hay : string) : bool :=
  if String.prefix needle hay then true
  else match hay with
       | EmptyString => false
       | String _ hay' => str_in needle hay'
       end.

(** [x in l] on a list of [str]. *)
Definition list_in (x : string) (l : list string) : bool :=
  existsb (String.eqb x) l.

(** [x in l] on a list of [int]. *)
Definition int_in (x : Z) (l : list Z) : bool :=
  existsb (Z.eqb x) l.

(** [str(n)] for an [int]. *)
Definition str_of_int (n : Z) : string :=
  NilZero.string_of_int (Z.to_int n).

(** How an f-string prints an OSD number that may be [None]. *)
Definition str_of_osd_num (n : option Z) : string :=
  match n with
  | Some k => str_of_int k
  | None => "None"
  end.

(** Truthiness of a [str]. *)
Definition str_truthy (s : string) : bool :=
  match s with
  | EmptyString => false
  | _ => true
  end.

(** ** The stored state: [osd_data] *)

(** One record of [osd_data], as written by [_save_osd_data]. *)
Record OsdRecord : Type := mkOsdRecord {
  disk_by_id : string;       (* /dev/disk/by-id/ path of the OSD device *)
  disk : string;             (* storage name of the OSD device *)
  db : option string         (* storage name of the DB device, or None *)
}.

(** A Python [dict] with [int] keys, in insertion order.  A value is a
    record or [None]. *)
Definition dict : Type := list (Z * option OsdRecord).

Definition keys (d : dict) : list Z := map fst d.

(** [d[k]] as an optional value. *)
Fixpoint dict_get (d : dict) (k : Z) : option (option OsdRecord) :=
  match d with
  | [] => None
  | (k', v) :: d' => if Z.eqb k' k then Some v else dict_get d' k
  end.

(** [d[k] = v]: an existing key keeps its place, a new one goes last. *)
Fixpoint dict_set (d : dict) (k : Z) (v : option OsdRecord) : dict :=
  match d with
  | [] => [(k, v)]
  | (k', v') :: d' =>
      if Z.eqb k' k then (k', v) :: d' else (k', v') :: dict_set d' k v
  end.

(** Keys are unique, as in any Python [dict]. *)
Fixpoint dict_wf (d : dict) : bool :=
  match d with
  | [] => true
  | (k, _) :: d' => negb (int_in k (keys d')) && dict_wf d'
  end.

(** The entries whose value is not [None]. *)
Definition live (d : dict) : dict :=
  filter (fun kv => match snd kv with Some _ => true | None => false end) d.

(** [v[directive]] on a record: the three keys it has; any other key is
    a [KeyError]. *)
Definition record_get (v : OsdRecord) (directive : string) : result (option string) :=
  if String.eqb directive "disk_by_id" then Ok (Some (disk_by_id v))
  else if String.eqb directive "disk" then Ok (Some (disk v))
  else if String.eqb directive "db" then Ok (db v)
  else Raise (KeyError directive).

(** [x == name] where [x] is a [str] or [None]. *)
Definition eq_name (x : option string) (name : string) : bool :=
  match x with
  | Some s => String.eqb s name
  | None => false
  end.

Definition standalone : string := "osd-standalone".

(** The loop of [_get_osd_id] over [dict(osd_data).items()]. *)
Fixpoint find_osd (d : dict) (directive name : string) : result (option Z) :=
  match d with
  | [] => Ok None
  | (k, None) :: d' => find_osd d' directive name
  | (k, Some v) :: d' =>
      match record_get v directive with
      | Raise e => Raise e
      | Ok x => if eq_name x name then Ok (Some k) else find_osd d' directive name
      end
  end.

(** [_get_osd_id(name)]: the OSD number of the OSD that uses storage
    [name], [None] when no OSD does. *)
Definition _get_osd_id (d : dict) (name : string) : result (option Z) :=
  let directive := split_head name in
  let directive := if String.eqb directive standalone then "disk" else directive in
  find_osd d directive name.

(** ** The collaborators *)

(** One entry of [microceph.list_disk_cmd()["ConfiguredDisks"]]. *)
Record ConfiguredDisk : Type := mkConfiguredDisk {
  osd : Z;
  path : string
}.

(** Calls that leave the handler, in the order they are made. *)
Inductive call : Type :=
| RemoveDisk (osd_num : option Z) (force : bool)  (* microceph.remove_disk_cmd *)
| ListDisk                                        (* microceph.list_disk_cmd *)
| EnrollDisks (paths : list json)                 (* microceph.enroll_disks_as_osds *)
| GetDiskInfo (by_id : string)                    (* microceph._get_disk_info *)
| Run (cmd : list string)                         (* subprocess run of a hook tool *)
| Sleep (seconds : Z).                            (* tenacity waiting before a new attempt *)

(** Values given to [charm.status.set]. *)
Inductive status : Type :=
| MaintenanceStatus (msg : string)
| ActiveStatus (msg : string).

(** The environment of the handler: the charm's readiness check, the
    [microceph] module, [subprocess.run] and [json.loads].  Each call
    answers with a value or an exception and moves the world on. *)
Record Env (World : Type) : Type := mkEnv {
  ready_for_service : World -> bool;
  remove_disk_cmd : option Z -> bool -> World -> result unit * World;
  list_disk_cmd : World -> result (list ConfiguredDisk) * World;
  enroll_disks_as_osds : list json -> World -> result unit * World;
  _get_disk_info : string -> World -> result (option string) * World;
  run : list string -> World -> result string * World;
  json_loads : string -> option json
}.
Arguments ready_for_service {World} _ _.
Arguments remove_disk_cmd {World} _ _ _ _.
Arguments list_disk_cmd {World} _ _.
Arguments enroll_disks_as_osds {World} _ _ _.
Arguments _get_disk_info {World} _ _ _.
Arguments run {World} _ _ _.
Arguments json_loads {World} _ _.

(** The state a handler runs in: the stored [osd_data], the world, and
    what the handler has done so far. *)
Record St (World : Type) : Type := mkSt {
  osd_data : dict;
  world : World;
  calls : list call;
  deferred : bool;            (* event.defer() was called *)
  statuses : list status      (* charm.status.set, oldest first *)
}.
Arguments mkSt {World} _ _ _ _ _.
Arguments osd_data {World} _.
Arguments world {World} _.
Arguments calls {World} _.
Arguments deferred {World} _.
Arguments statuses {World} _.

(** How a handler ends: it returns, an exception leaves its
    [with sunbeam_guard.guard(...)] block and reaches the guard, or an
    exception leaves the handler outside of any guard. *)
Inductive outcome : Type :=
| Returned
| RaisedInGuard (e : exn)
| Raised (e : exn).

(** ** A state and exception monad *)

Definition M (World A : Type) : Type := St World -> result A * St World.

Definition ret {World A} (a : A) : M World A := fun st => (Ok a, st).

Definition raise {World A} (e : exn) : M World A := fun st => (Raise e, st).

Definition bind {World A B} (m : M World A) (f : A -> M World B) : M World B :=
  fun st =>
    match m st with
    | (Ok a, st') => f a st'
    | (Raise e, st') => (Raise e, st')
    end.

(** [try: m  except: h]; [h] re-raises what it does not handle. *)
Definition try_except {World A} (m : M World A) (h : exn -> M World A) : M World A :=
  fun st =>
    match m st with
    | (Ok a, st') => (Ok a, st')
    | (Raise e, st') => h e st'
    end.

Declare Scope py_scope.
Delimit Scope py_scope with py.
Notation "x <- m ;; k" := (bind m (fun x => k))
  (at level 61, m at next level, right associativity) : py_scope.
Notation "m ;; k" := (bind m (fun _ => k))
  (at level 61, right associativity) : py_scope.
Local Open Scope py_scope.

(** [for x in l: body x]. *)
Fixpoint for_each {World A} (l : list A) (body : A -> M World unit) : M World unit :=
  match l with
  | [] => ret tt
  | x :: l' => body x ;; for_each l' body
  end.

(** [[f x for x in l]], the calls made in order. *)
Fixpoint map_m {World A B} (f : A -> M World B) (l : list A) : M World (list B) :=
  match l with
  | [] => ret []
  | x :: l' => y <- f x ;; ys <- map_m f l' ;; ret (y :: ys)
  end.

Definition lift {World A} (r : result A) : M World A := fun st => (r, st).

Definition get_osd_data {World} : M World dict := fun st => (Ok (osd_data st), st).

Definition put_osd_data {World} (d : dict) : M World unit :=
  fun st => (Ok tt, mkSt d (world st) (calls st) (deferred st) (statuses st)).

Definition log_call {World} (c : call) : M World unit :=
  fun st => (Ok tt, mkSt (osd_data st) (world st) (calls st ++ [c]) (deferred st) (statuses st)).

Definition set_status {World} (s : status) : M World unit :=
  fun st => (Ok tt, mkSt (osd_data st) (world st) (calls st) (deferred st) (statuses st ++ [s])).

Definition defer {World} (st : St World) : St World :=
  mkSt (osd_data st) (world st) (calls st) true (statuses st).

(** The state once the call [c] has been made and left the world [w]. *)
Definition answered {World} (st : St World) (c : call) (w : World) : St World :=
  mkSt (osd_data st) w (calls st ++ [c]) (deferred st) (statuses st).

(** A call to a collaborator: it is logged, then answered by the world. *)
Definition external {World A} (c : call) (f : World -> result A * World) : M World A :=
  fun st =>
    let (r, w) := f (world st) in
    (r, answered st c w).

(** [with sunbeam_guard.guard(charm, name): body]. *)
Definition guard {World} (body : M World unit) (st : St World) : outcome * St World :=
  match body st with
  | (Ok _, st') => (Returned, st')
  | (Raise e, st') => (RaisedInGuard e, st')
  end.

(** [@retry(wait=wait_fixed(w), stop=stop_after_attempt(n))] of tenacity:
    the call is attempted; an exception is followed by a wait of [w] and
    a new attempt, until attempt number [n] has failed, which raises
    [RetryError].  [more] counts the attempts left after the next one. *)
Fixpoint retry_loop {World A} (w : Z) (more : nat) (f : M World A) : M World A :=
  try_except f
    (fun _ =>
       match more with
       | O => raise RetryError
       | S more' => log_call (Sleep w) ;; retry_loop w more' f
       end).

Definition retry {World A} (w : Z) (attempts : nat) (f : M World A) : M World A :=
  retry_loop w (Nat.pred attempts) f.

(** The log of a call [c] attempted [more + 1] times with a wait of [w]
    before each new attempt. *)
Fixpoint attempts (c : call) (w : Z) (more : nat) : list call :=
  match more with
  | O => [c]
  | S more' => c :: Sleep w :: attempts c w more'
  end.

(** ** The methods of [StorageHandler] *)

Section StorageHandler.

Context {World : Type} (E : Env World).

(** [_is_safety_failure(err)]. *)
Definition _is_safety_failure (err : string) : bool :=
  str_in "need at least 3 OSDs" err.

(** The loop of [_clean_stale_osd_data]: it walks the keys of a copy of
    [osd_data] and writes [None] over those not in [osds]. *)
Fixpoint clean_loop (osds : list Z) (ks : list Z) (d : dict) : dict :=
  match ks with
  | [] => d
  | osd_num :: ks' =>
      clean_loop osds ks' (if negb (int_in osd_num osds) then dict_set d osd_num None else d)
  end.

(** [_clean_stale_osd_data()]. *)
Definition _clean_stale_osd_data : M World unit :=
  disks <- external ListDisk (list_disk_cmd E) ;;
  let osds := map osd disks in
  d <- get_osd_data ;;
  put_osd_data (clean_loop osds (keys d) d).

(** [remove_osd(osd_num, force)]. *)
Definition remove_osd (osd_num : option Z) (force : bool) : M World unit :=
  try_except
    (external (RemoveDisk osd_num force) (remove_disk_cmd E osd_num force) ;;
     _clean_stale_osd_data)
    (fun e =>
       match e with
       | CalledProcessError _ =>
           (if force then _clean_stale_osd_data else ret tt) ;;
           raise e
       | _ => raise e
       end).

(** The warning of the detach handler. *)
Definition detach_warning (full_id : string) (osd_num : option Z) : string :=
  "Storage " ++ full_id ++ " detached, provide replacement for osd."
    ++ str_of_osd_num osd_num ++ ".".

(** The body of the guarded block of [_on_storage_detaching]. *)
Definition detach_guarded (full_id : string) (osd_num : option Z) : M World unit :=
  try_except
    (remove_osd osd_num false)
    (fun e =>
       match e with
       | CalledProcessError stderr =>
           if _is_safety_failure stderr then
             let warning := detach_warning full_id osd_num in
             remove_osd osd_num true ;;
             raise (BlockedExceptionError warning)
           else ret tt
       | _ => raise e
       end).

(** [_on_storage_detaching(event)], with [full_id] for
    [event.storage.full_id]. *)
Definition _on_storage_detaching (full_id : string) (st : St World) : outcome * St World :=
  match _get_osd_id (osd_data st) full_id with
  | Raise e => (Raised e, st)
  | Ok osd_num =>
      match osd_num with
      | Some _ => (Returned, st)       (* if osd_num is not None: return *)
      | None => guard (detach_guarded full_id osd_num) st
      end
  end.

(** The arguments of a hook tool: [extra] are appended when truthy. *)
Definition opt_arg (flag : list string) (x : option string) : list string :=
  match x with
  | Some s => if str_truthy s then (flag ++ [s])%list else []
  | None => []
  end.

(** [_run(cmd)]: the standard output of the command. *)
Definition _run (cmd : list string) : M World string :=
  external (Run cmd) (run E cmd).

(** [json.loads(self._run(_args))]. *)
Definition run_json (_args : list string) : M World json :=
  out <- _run _args ;;
  match json_loads E out with
  | Some j => ret j
  | None => raise ValueError
  end.

(** The command line built by [juju_storage_get]. *)
Definition storage_get_args (storage_id attribute : option string) : list string :=
  (["storage-get"; "--format=json"] ++ opt_arg ["-s"] storage_id ++ opt_arg [] attribute)%list.

(** The command line built by [juju_storage_list]. *)
Definition storage_list_args (storage_name : option string) : list string :=
  (["storage-list"; "--format=json"] ++ opt_arg [] storage_name)%list.

(** The body of [juju_storage_get], one attempt. *)
Definition storage_get_once (storage_id attribute : option string) : M World json :=
  let _args := storage_get_args storage_id attribute in
  try_except (run_json _args)
    (fun e =>
       match e with
       | ValueError => ret JNull
       | _ => raise e
       end).

(** [juju_storage_get(storage_id, attribute)], under its decorator. *)
Definition juju_storage_get (storage_id attribute : option string) : M World json :=
  retry 5 10 (storage_get_once storage_id attribute).

(** [juju_storage_list(storage_name)]. *)
Definition juju_storage_list (storage_name : option string) : M World json :=
  let _args := storage_list_args storage_name in
  try_except (run_json _args)
    (fun e =>
       match e with
       | ValueError => ret JNull
       | OSError errno => if Z.eqb errno ENOENT then ret (JList []) else raise e
       | _ => raise e
       end).

(** [for x in v] on a decoded value: the items of a list, the characters
    of a string, the keys of a dict; the other values are not iterable. *)
Definition py_iter (v : json) : result (list json) :=
  match v with
  | JList l => Ok l
  | JStr s => Ok (map (fun c => JStr (String c EmptyString)) (list_ascii_of_string s))
  | JDict kv => Ok (map (fun p => JStr (fst p)) kv)
  | _ => Raise TypeError
  end.

(** [_fetch_filtered_storages(directives)]. *)
Definition _fetch_filtered_storages (directives : list string) : M World (list string) :=
  listing <- juju_storage_list None ;;
  devices <- lift (py_iter listing) ;;
  (fix loop (ds : list json) (filtered : list string) : M World (list string) :=
     match ds with
     | [] => ret filtered
     | JStr device :: ds' =>
         loop ds' (if list_in (split_head device) directives
                   then (filtered ++ [device])%list else filtered)
     | _ :: _ => raise AttributeError        (* no split on a non-str *)
     end) devices [].

(** [not x] where [x] is what [_get_osd_id] returned. *)
Definition py_not (x : option Z) : bool :=
  match x with
  | None => true
  | Some k => Z.eqb k 0
  end.

(** The loop that builds [enroll] in [_on_osd_standalone_attached]. *)
Fixpoint enroll_loop (storages : list string) (enroll : list string) : M World (list string) :=
  match storages with
  | [] => ret enroll
  | storage :: storages' =>
      d <- get_osd_data ;;
      x <- lift (_get_osd_id d storage) ;;
      enroll_loop storages' (if py_not x then (enroll ++ [storage])%list else enroll)
  end.

Definition enrollment_set : M World (list string) :=
  storages <- _fetch_filtered_storages [standalone] ;;
  enroll_loop storages [].

(** [name in v] where [v] is a decoded value. *)
Definition py_in (name : string) (v : json) : result bool :=
  match v with
  | JStr s => Ok (str_in name s)
  | JList l => Ok (existsb (fun x => match x with JStr s => String.eqb s name | _ => false end) l)
  | JDict kv => Ok (existsb (fun p => String.eqb (fst p) name) kv)
  | _ => Raise TypeError
  end.

(** [_save_osd_data(disk_name, db_name)]. *)
Definition _save_osd_data (disk_name : string) (db_name : option string) : M World unit :=
  disk_path <- juju_storage_get (Some disk_name) (Some "location") ;;
  disks <- external ListDisk (list_disk_cmd E) ;;
  for_each disks
    (fun o =>
       local_device <- external (GetDiskInfo (path o)) (_get_disk_info E (path o)) ;;
       match local_device with
       | None => ret tt                       (* not on this unit: continue *)
       | Some name =>
           hit <- lift (py_in name disk_path) ;;
           if hit then
             d <- get_osd_data ;;
             put_osd_data (dict_set d (osd o) (Some (mkOsdRecord (path o) disk_name db_name)))
           else ret tt
       end).

(** [_enroll_disks_in_batch(disks)].  The lazy [map] of the source is
    consumed by [enroll_disks_as_osds]; here the locations are fetched
    just before that call.  The log therefore shows the [storage-get]
    runs ahead of [EnrollDisks], where the source makes them inside
    that call, and shows no [EnrollDisks] when one of them fails; the
    properties below do not rest on that order. *)
Definition _enroll_disks_in_batch (disks : list string) : M World unit :=
  disk_paths <- map_m (fun name => juju_storage_get (Some name) (Some "location")) disks ;;
  external (EnrollDisks disk_paths) (enroll_disks_as_osds E disk_paths) ;;
  for_each disks (fun d => _save_osd_data d None).

(** The body of the guarded block of [_on_osd_standalone_attached]. *)
Definition attach_guarded (enroll : list string) : M World unit :=
  set_status (MaintenanceStatus "Enrolling OSDs") ;;
  _enroll_disks_in_batch enroll ;;
  set_status (ActiveStatus "charm is ready").

(** [_on_osd_standalone_attached(event)]. *)
Definition _on_osd_standalone_attached (st : St World) : outcome * St World :=
  if negb (ready_for_service E (world st)) then (Returned, defer st)
  else
    match (_clean_stale_osd_data ;; enrollment_set) st with
    | (Raise e, st') => (Raised e, st')
    | (Ok enroll, st') => guard (attach_guarded enroll) st'
    end.

End StorageHandler.

(** ** A small world to run the handler in *)

Module Scenario.

(** A node with a backend that refuses a non-forced removal leaving
    fewer than three OSDs, and hook tools that may lag. *)
Record world : Type := mkWorld {
  ready : bool;                          (* the service is ready *)
  configured : list ConfiguredDisk;      (* what the backend lists *)
  broken : bool;                         (* backend commands exit non-zero *)
  attached : list (string * string);     (* storage name, location *)
  lag : nat                              (* hook tool calls that still fail *)
}.

Definition refusal : string :=
  "Error: cannot remove the OSD, need at least 3 OSDs in the cluster".

Definition outage : string := "Error: cluster unreachable".

Definition not_found : string := "ERROR storage not found".

Definition invalid_osd : string := "Error: invalid OSD number".

Definition with_configured (w : world) (c : list ConfiguredDisk) : world :=
  mkWorld (ready w) c (broken w) (attached w) (lag w).

Definition drop_osd (k : Z) (w : world) : world :=
  with_configured w (filter (fun c => negb (Z.eqb (osd c) k)) (configured w)).

Definition remove (osd_num : option Z) (force : bool) (w : world) : result unit * world :=
  match osd_num with
  | None => (Raise (CalledProcessError invalid_osd), w)
  | Some k =>
      if broken w then (Raise (CalledProcessError outage), w)
      else if negb force && Nat.leb (List.length (configured w)) 3
      then (Raise (CalledProcessError refusal), w)
      else (Ok tt, drop_osd k w)
  end.

Definition list_disks (w : world) : result (list ConfiguredDisk) * world :=
  if broken w then (Raise (CalledProcessError outage), w) else (Ok (configured w), w).

Definition next_osd (c : list ConfiguredDisk) : Z :=
  fold_right (fun d m => Z.max (osd d + 1) m) 0 c.

Definition by_id_prefix : string := "/dev/disk/by-id/virtio-".

(** [/dev/vdc] is enrolled under [/dev/disk/by-id/virtio-vdc]. *)
Definition by_id_of (location : string) : string :=
  by_id_prefix ++ substring 5 (String.length location - 5) location.

(** A disk that is not an OSD yet becomes the OSD with the next number. *)
Definition enroll_one (w : world) (p : json) : world :=
  match p with
  | JStr location =>
      if existsb (fun c => String.eqb (path c) (by_id_of location)) (configured w) then w
      else with_configured w
             (configured w ++ [mkConfiguredDisk (next_osd (configured w)) (by_id_of location)])
  | _ => w
  end.

Definition enroll (paths : list json) (w : world) : result unit * world :=
  if broken w then (Raise (CalledProcessError outage), w)
  else (Ok tt, fold_left enroll_one paths w).

(** The block device behind a by-id path; every disk is local here. *)
Definition disk_info (by_id : string) (w : world) : result (option string) * world :=
  if String.prefix by_id_prefix by_id
  then (Ok (Some (substring (String.length by_id_prefix)
                    (String.length by_id - String.length by_id_prefix) by_id)), w)
  else (Ok None, w).

Definition dq : ascii := "034"%char.

Definition quoted (s : string) : string := String dq (s ++ String dq EmptyString).

Fixpoint comma_separated (l : list string) : string :=
  match l with
  | [] => EmptyString
  | [x] => quoted x
  | x :: l' => quoted x ++ ", " ++ comma_separated l'
  end.

Definition print_list (l : list string) : string := "[" ++ comma_separated l ++ "]".

Fixpoint lookup (k : string) (l : list (string * string)) : option string :=
  match l with
  | [] => None
  | (k', v) :: l' => if String.eqb k' k then Some v else lookup k l'
  end.

(** The hook tools: they fail while the metadata lags behind. *)
Definition hook_tool (cmd : list string) (w : world) : result string * world :=
  match lag w with
  | S n => (Raise (CalledProcessError not_found),
            mkWorld (ready w) (configured w) (broken w) (attached w) n)
  | O =>
      match cmd with
      | ["storage-list"; "--format=json"] => (Ok (print_list (map fst (attached w))), w)
      | ["storage-get"; "--format=json"; "-s"; name; "location"] =>
          match lookup name (attached w) with
          | Some location => (Ok (quoted location), w)
          | None => (Raise (CalledProcessError not_found), w)
          end
      | _ => (Raise (CalledProcessError "ERROR unknown command"), w)
      end
  end.

(** Reads a string up to its closing quote. *)
Fixpoint read_string (s : string) : option (string * string) :=
  match s with
  | EmptyString => None
  | String c s' =>
      if Ascii.eqb c dq then Some (EmptyString, s')
      else match read_string s' with
           | Some (a, rest) => Some (String c a, rest)
           | None => None
           end
  end.

(** Reads the items of a list of strings, after its bracket. *)
Fixpoint read_items (fuel : nat) (s : string) : option (list json) :=
  match fuel, s with
  | S fuel', String c s' =>
      if Ascii.eqb c dq then
        match read_string s' with
        | Some (a, String "]" EmptyString) => Some [JStr a]
        | Some (a, String "," (String " " rest)) =>
            option_map (cons (JStr a)) (read_items fuel' rest)
        | _ => None
        end
      else None
  | _, _ => None
  end.

(** A decoder for the documents the hook tools print. *)
Definition loads (s : string) : option json :=
  if String.eqb s "null" then Some JNull
  else if String.eqb s "[]" then Some (JList [])
  else match s with
       | String c s' =>
           if Ascii.eqb c "[" then option_map JList (read_items (String.length s) s')
           else if Ascii.eqb c dq then
             match read_string s' with
             | Some (a, EmptyString) => Some (JStr a)
             | _ => None
             end
           else None
       | EmptyString => None
       end.

Definition env : Env world :=
  mkEnv world ready remove list_disks enroll disk_info hook_tool loads.

Definition start (d : dict) (w : world) : St world := mkSt d w [] false [].

(** The record of the OSD made from storage [name] at [/dev/<dev>]. *)
Definition record (name dev : string) : OsdRecord :=
  mkOsdRecord (by_id_prefix ++ dev) name None.

Definition disk_entry (k : Z) (dev : string) : ConfiguredDisk :=
  mkConfiguredDisk k (by_id_prefix ++ dev).

(** The same node with hook tools that never answer. *)
Definition env_offline : Env world :=
  mkEnv world ready remove list_disks enroll disk_info
    (fun _ w => (Raise (CalledProcessError not_found), w)) loads.

(** Three OSDs in the cluster; OSD 5 was made from [osd-standalone/2]. *)
Definition three_osds : world :=
  mkWorld true [disk_entry 3 "vdb"; disk_entry 5 "vdc"; disk_entry 7 "vdd"] false
    [("osd-standalone/2", "/dev/vdc")] 0.

Definition osd5 : dict :=
  [(5, Some (mkOsdRecord "/dev/disk/by-id/x" "osd-standalone/2" None))].

(** OSD 9 is still in [osd_data] but no longer in the cluster. *)
Definition osd5_stale9 : dict :=
  [(5, Some (record "osd-standalone/2" "vdc")); (9, Some (record "osd-standalone/4" "vde"))].

(** OSDs 3 and 7 in [osd_data], only OSD 3 in the cluster. *)
Definition osd3_osd7 : dict :=
  [(3, Some (record "osd-standalone/0" "vdb")); (7, Some (record "osd-standalone/1" "vdc"))].

Definition only_osd3 : world := mkWorld true [disk_entry 3 "vdb"] false [] 0.

(** A fresh node with one attached disk and no OSD. *)
Definition fresh_node : world :=
  mkWorld true [] false [("osd-standalone/0", "/dev/vdb")] 0.

(** The service is not up yet. *)
Definition not_ready : world :=
  mkWorld false [] false [("osd-standalone/0", "/dev/vdb")] 0.

End Scenario.

(** ** Relations between the states before and after a method *)

(** [m] takes every state to a state related to it by [R], whether it
    returns or raises. *)
Definition preserves {World A : Type} (R : St World -> St World -> Prop)
    (m : M World A) : Prop :=
  forall st, R st (snd (m st)).

(** From [st] to [st'] calls were only added, all of them accepted by [P]. *)
Definition only_calls {World : Type} (P : call -> bool) (st st' : St World) : Prop :=
  exists l, calls st' = (calls st ++ l)%list /\ forallb P l = true.

Definition removal_or_listing (c : call) : bool :=
  match c with
  | RemoveDisk _ _ | ListDisk => true
  | _ => false
  end.

Definition not_removal (c : call) : bool :=
  match c with
  | RemoveDisk _ _ => false
  | _ => true
  end.

(** From [st] to [st'] the dictionary kept its keys, and each value is
    what it was or [None]. *)
Definition only_tombstones {World : Type} (st st' : St World) : Prop :=
  keys (osd_data st') = keys (osd_data st) /\
  forall k, dict_get (osd_data st') k = dict_get (osd_data st) k \/
            dict_get (osd_data st') k = Some None.

(** Every record of [st'] was already there in [st], or is the record
    of an [osd-standalone] storage without a DB device. *)
Definition only_standalone_records {World : Type} (st st' : St World) : Prop :=
  forall k v, dict_get (osd_data st') k = Some (Some v) ->
              dict_get (osd_data st) k = Some (Some v) \/
              (split_head (disk v) = standalone /\ db v = None).

(** [R] is kept by the write of a record for [disk_name] under the
    number of a listed OSD, as [_save_osd_data] does it. *)
Definition keeps_write {World : Type} (R : St World -> St World -> Prop)
    (disk_name : string) (db_name : option string) : Prop :=
  forall o : ConfiguredDisk,
    preserves R
      (bind get_osd_data
         (fun d => put_osd_data
                     (dict_set d (osd o) (Some (mkOsdRecord (path o) disk_name db_name))))).

(** The loop of [_fetch_filtered_storages] as a function of the devices
    it walks and of the list it has filled so far. *)
Fixpoint filter_devices (directives : list string) (ds : list json)
    (filtered : list string) : result (list string) :=
  match ds with
  | [] => Ok filtered
  | JStr device :: ds' =>
      filter_devices directives ds'
        (if list_in (split_head device) directives
         then (filtered ++ [device])%list else filtered)
  | _ :: _ => Raise AttributeError
  end.

(** ** Nodes with unusual hook tools *)

Module Hooks.

(** A node without the [storage-list] and [storage-get] tools. *)
Definition env_missing : Env Scenario.world :=
  mkEnv Scenario.world Scenario.ready Scenario.remove Scenario.list_disks
    Scenario.enroll Scenario.disk_info
    (fun _ w => (Raise (OSError ENOENT), w)) Scenario.loads.

(** A node whose hook tools print a text that is not JSON. *)
Definition env_garbled : Env Scenario.world :=
  mkEnv Scenario.world Scenario.ready Scenario.remove Scenario.list_disks
    Scenario.enroll Scenario.disk_info
    (fun _ w => (Ok "storage backend busy", w)) Scenario.loads.

(** A node with two more storages, one of another directive. *)
Definition mixed_node : Scenario.world :=
  Scenario.mkWorld true [] false
    [("osd-standalone/0", "/dev/vdb"); ("cache/0", "/dev/vdc");
     ("osd-standalone/1", "/dev/vdd")] 0.

End Hooks.

(** From [st] to [st'] no status was set and the event was not deferred. *)
Definition quiet {World : Type} (st st' : St World) : Prop :=
  statuses st' = statuses st /\ deferred st' = deferred st.

(** ** Backends that fail *)

Module Backends.



End Backends.

(** * Properties *)

(** ** Dictionaries *)

Lemma int_in_spec (x : Z) (l : list Z) : int_in x l = true <-> In x l.
Proof.
  unfold int_in. rewrite existsb_exists. split.
  - intros [y [Hy Heq]]. apply Z.eqb_eq in Heq. now subst.
  - intros H. exists x. split; [assumption | apply Z.eqb_refl].
Qed.

Lemma dict_wf_cons (k : Z) (v : option OsdRecord) (d : dict) :
  dict_wf ((k, v) :: d) = true <-> ~ In k (keys d) /\ dict_wf d = true.
Proof.
  simpl. rewrite andb_true_iff, negb_true_iff. split.
  - intros [Hk Hd]. split; [| assumption].
    intros Hin. apply int_in_spec in Hin. congruence.
  - intros [Hk Hd]. split; [| assumption].
    destruct (int_in k (keys d)) eqn:Hin; [| reflexivity].
    apply int_in_spec in Hin. contradiction.
Qed.

Lemma in_keys (k : Z) (v : option OsdRecord) (d : dict) :
  In (k, v) d -> In k (keys d).
Proof. intros H. unfold keys. change k with (fst (k, v)). now apply in_map. Qed.

Lemma dict_get_in (d : dict) (k : Z) (v : option OsdRecord) :
  dict_wf d = true -> In (k, v) d -> dict_get d k = Some v.
Proof.
  induction d as [| [k' v'] d IH]; intros Hwf Hin; [contradiction |].
  apply dict_wf_cons in Hwf. destruct Hwf as [Hk Hwf].
  simpl. destruct Hin as [Heq | Hin].
  - inversion Heq; subst. now rewrite Z.eqb_refl.
  - destruct (Z.eqb_spec k' k) as [-> | _].
    + exfalso. apply Hk. eapply in_keys; eassumption.
    + now apply IH.
Qed.

(** ** Handle resolution *)

Lemma find_osd_live (d : dict) (directive name : string) :
  find_osd d directive name = find_osd (live d) directive name.
Proof.
  induction d as [| [k [v |]] d IH]; simpl; [reflexivity | | assumption].
  destruct (record_get v directive) as [x | e]; [| reflexivity].
  destruct (eq_name x name); [reflexivity | assumption].
Qed.

Lemma find_osd_found (d : dict) (directive name : string) (k : Z) :
  find_osd d directive name = Ok (Some k) ->
  exists v x, In (k, Some v) d /\ record_get v directive = Ok x /\ eq_name x name = true.
Proof.
  induction d as [| [k' [v |]] d IH]; simpl; intros H.
  - discriminate.
  - destruct (record_get v directive) as [x | e] eqn:Hget; [| discriminate].
    destruct (eq_name x name) eqn:Heq.
    + inversion H; subst. exists v, x. auto.
    + destruct (IH H) as [v0 [x0 [Hin Hrest]]]. exists v0, x0. auto.
  - destruct (IH H) as [v0 [x0 [Hin Hrest]]]. exists v0, x0. auto.
Qed.

(** C8.  With [osd_data] holding the single record
    [{5: {disk_by_id: /dev/disk/by-id/x, disk: osd-standalone/2, db: None}}],
    [_get_osd_id] returns 5 for [osd-standalone/2] and [None] for
    [osd-standalone/9]. *)
Theorem get_osd_id_example :
  let d := [(5, Some (mkOsdRecord "/dev/disk/by-id/x" "osd-standalone/2" None))] in
  _get_osd_id d "osd-standalone/2" = Ok (Some 5) /\
  _get_osd_id d "osd-standalone/9" = Ok None.
Proof. split; reflexivity. Qed.

(** C10.  [_get_osd_id] never returns the key of an entry whose value is
    [None]: the key it returns holds a record, and the answer is the one
    it gives on the dictionary without its [None] entries. *)
Theorem get_osd_id_ignores_tombstones (d : dict) (name : string) :
  dict_wf d = true ->
  _get_osd_id d name = _get_osd_id (live d) name /\
  forall k, _get_osd_id d name = Ok (Some k) -> exists v, dict_get d k = Some (Some v).
Proof.
  intros Hwf. unfold _get_osd_id. split.
  - apply find_osd_live.
  - intros k H. apply find_osd_found in H. destruct H as [v [x [Hin _]]].
    exists v. now apply dict_get_in.
Qed.

Lemma get_osd_id_ignores_tombstones_witness :
  let d := [(3, None); (5, Some (Scenario.record "osd-standalone/2" "vdc"))] in
  dict_wf d = true /\
  (_get_osd_id d "osd-standalone/2" = _get_osd_id (live d) "osd-standalone/2" /\
   forall k, _get_osd_id d "osd-standalone/2" = Ok (Some k) ->
             exists v, dict_get d k = Some (Some v)).
Proof.
  split; [reflexivity |].
  apply (get_osd_id_ignores_tombstones
           [(3, None); (5, Some (Scenario.record "osd-standalone/2" "vdc"))]
           "osd-standalone/2").
  reflexivity.
Defined.

(** ** Stale cleanup *)

Lemma dict_get_set (d : dict) (k k' : Z) (v : option OsdRecord) :
  dict_get (dict_set d k v) k' = if Z.eqb k k' then Some v else dict_get d k'.
Proof.
  induction d as [| [k0 v0] d IH]; simpl.
  - reflexivity.
  - destruct (Z.eqb_spec k0 k) as [-> | Hne]; simpl.
    + destruct (Z.eqb k k'); reflexivity.
    + rewrite IH. destruct (Z.eqb_spec k0 k') as [-> | _]; [| reflexivity].
      destruct (Z.eqb_spec k k') as [-> | _]; [contradiction | reflexivity].
Qed.

Lemma keys_dict_set (d : dict) (k : Z) (v : option OsdRecord) :
  In k (keys d) -> keys (dict_set d k v) = keys d.
Proof.
  induction d as [| [k0 v0] d IH]; simpl; intros Hin; [contradiction |].
  destruct (Z.eqb_spec k0 k) as [-> | Hne]; simpl; [reflexivity |].
  f_equal. apply IH. destruct Hin; [contradiction | assumption].
Qed.

Lemma dict_get_none (d : dict) (k : Z) : ~ In k (keys d) -> dict_get d k = None.
Proof.
  induction d as [| [k0 v0] d IH]; simpl; intros Hin; [reflexivity |].
  destruct (Z.eqb_spec k0 k) as [-> | _].
  - exfalso. apply Hin. now left.
  - apply IH. intros H. apply Hin. now right.
Qed.

Lemma dict_get_some (d : dict) (k : Z) : In k (keys d) -> exists v, dict_get d k = Some v.
Proof.
  induction d as [| [k0 v0] d IH]; simpl; intros Hin; [contradiction |].
  destruct (Z.eqb_spec k0 k) as [-> | Hne].
  - now exists v0.
  - apply IH. destruct Hin; [contradiction | assumption].
Qed.

Lemma keys_clean_loop (osds ks : list Z) (d : dict) :
  incl ks (keys d) -> keys (clean_loop osds ks d) = keys d.
Proof.
  revert d. induction ks as [| a ks IH]; simpl; intros d Hincl; [reflexivity |].
  assert (Ha : In a (keys d)) by (apply Hincl; now left).
  assert (Hks : incl ks (keys d)) by (intros x Hx; apply Hincl; now right).
  destruct (negb (int_in a osds)).
  - rewrite IH by (rewrite keys_dict_set; assumption).
    now apply keys_dict_set.
  - now apply IH.
Qed.

Lemma dict_get_clean_loop (osds ks : list Z) (d : dict) (k : Z) :
  incl ks (keys d) ->
  dict_get (clean_loop osds ks d) k =
    if int_in k ks && negb (int_in k osds) then Some None else dict_get d k.
Proof.
  revert d. induction ks as [| a ks IH]; simpl; intros d Hincl; [reflexivity |].
  assert (Ha : In a (keys d)) by (apply Hincl; now left).
  assert (Hks : incl ks (keys d)) by (intros x Hx; apply Hincl; now right).
  destruct (int_in a osds) eqn:Hosd; simpl.
  - rewrite IH by assumption.
    destruct (Z.eqb_spec k a) as [-> | _]; simpl; [| reflexivity].
    rewrite Hosd. simpl. now rewrite andb_false_r.
  - rewrite IH by (rewrite keys_dict_set; assumption).
    rewrite dict_get_set, (Z.eqb_sym a k).
    destruct (Z.eqb_spec k a) as [-> | _]; simpl; [| reflexivity].
    rewrite Hosd. simpl. destruct (int_in a ks); reflexivity.
Qed.

Section Cleanup.

Context {World : Type} (E : Env World).

Lemma clean_stale_osd_data_run (st : St World) :
  _clean_stale_osd_data E st =
    match list_disk_cmd E (world st) with
    | (Ok disks, w) =>
        (Ok tt,
         mkSt (clean_loop (map osd disks) (keys (osd_data st)) (osd_data st))
           w (calls st ++ [ListDisk]) (deferred st) (statuses st))
    | (Raise e, w) => (Raise e, answered st ListDisk w)
    end.
Proof.
  unfold _clean_stale_osd_data, bind, external, get_osd_data, put_osd_data, answered.
  destruct (list_disk_cmd E (world st)) as [[disks | e] w]; reflexivity.
Qed.

(** C3 (amended).  When the backend lists its OSDs, cleanup keeps every
    key of [osd_data] in place; a key that is in the listing keeps its
    value and a key that is not gets [None] as its value.  So every
    key that still holds a record is in the listing. *)
Theorem clean_stale_osd_data_tombstones (st : St World)
    (disks : list ConfiguredDisk) (w : World) :
  list_disk_cmd E (world st) = (Ok disks, w) ->
  let st' := snd (_clean_stale_osd_data E st) in
  fst (_clean_stale_osd_data E st) = Ok tt /\
  keys (osd_data st') = keys (osd_data st) /\
  (forall k, dict_get (osd_data st') k =
             if int_in k (map osd disks) then dict_get (osd_data st) k
             else option_map (fun _ => None) (dict_get (osd_data st) k)) /\
  (forall k v, dict_get (osd_data st') k = Some (Some v) -> In k (map osd disks)).
Proof.
  intros Hlist st'. subst st'. rewrite clean_stale_osd_data_run, Hlist. simpl.
  assert (Hget : forall k,
    dict_get (clean_loop (map osd disks) (keys (osd_data st)) (osd_data st)) k =
      if int_in k (map osd disks) then dict_get (osd_data st) k
      else option_map (fun _ => None) (dict_get (osd_data st) k)).
  { intros k. rewrite dict_get_clean_loop by apply incl_refl.
    destruct (int_in k (keys (osd_data st))) eqn:Hk; simpl.
    - apply int_in_spec, dict_get_some in Hk. destruct Hk as [v Hv]. rewrite Hv.
      destruct (int_in k (map osd disks)); reflexivity.
    - assert (Hnone : dict_get (osd_data st) k = None).
      { apply dict_get_none. intros Hin. apply int_in_spec in Hin. congruence. }
      rewrite Hnone. destruct (int_in k (map osd disks)); reflexivity. }
  repeat split.
  - apply keys_clean_loop, incl_refl.
  - exact Hget.
  - intros k v Hv. rewrite Hget in Hv.
    destruct (int_in k (map osd disks)) eqn:Hk.
    + now apply int_in_spec.
    + destruct (dict_get (osd_data st) k); discriminate.
Qed.

End Cleanup.

Lemma clean_stale_osd_data_tombstones_witness :
  let st := Scenario.start Scenario.osd3_osd7 Scenario.only_osd3 in
  let st' := snd (_clean_stale_osd_data Scenario.env st) in
  fst (_clean_stale_osd_data Scenario.env st) = Ok tt /\
  keys (osd_data st') = keys (osd_data st) /\
  (forall k, dict_get (osd_data st') k =
             if int_in k [3] then dict_get (osd_data st) k
             else option_map (fun _ => None) (dict_get (osd_data st) k)) /\
  (forall k v, dict_get (osd_data st') k = Some (Some v) -> In k [3]).
Proof.
  exact (clean_stale_osd_data_tombstones Scenario.env
           (Scenario.start Scenario.osd3_osd7 Scenario.only_osd3)
           [Scenario.disk_entry 3 "vdb"] Scenario.only_osd3 eq_refl).
Defined.

(** C3 as claimed fails: with OSDs 3 and 7 in [osd_data] and only OSD 3
    listed, cleanup leaves both keys, 7 with the value [None]. *)
Lemma clean_stale_osd_data_keeps_key :
  let st := Scenario.start Scenario.osd3_osd7 Scenario.only_osd3 in
  let st' := snd (_clean_stale_osd_data Scenario.env st) in
  keys (osd_data st') = [3; 7] /\
  dict_get (osd_data st') 7 = Some None /\
  keys (osd_data st') <> [3].
Proof. repeat split. discriminate. Qed.

(** ** Removal *)

Section Removal.

Context {World : Type} (E : Env World).

Lemma clean_stale_osd_data_calls (st : St World) :
  calls (snd (_clean_stale_osd_data E st)) = (calls st ++ [ListDisk])%list.
Proof.
  rewrite clean_stale_osd_data_run.
  destruct (list_disk_cmd E (world st)) as [[disks | e] w]; reflexivity.
Qed.


(** How [remove_osd] unfolds once the backend has answered. *)
Lemma remove_osd_run (osd_num : option Z) (force : bool) (st : St World) :
  let st1 := answered st (RemoveDisk osd_num force)
               (snd (remove_disk_cmd E osd_num force (world st))) in
  remove_osd E osd_num force st =
    match fst (remove_disk_cmd E osd_num force (world st)) with
    | Ok _ =>
        match _clean_stale_osd_data E st1 with
        | (Ok _, st2) => (Ok tt, st2)
        | (Raise (CalledProcessError err), st2) =>
            if force then
              match _clean_stale_osd_data E st2 with
              | (Ok _, st3) => (Raise (CalledProcessError err), st3)
              | (Raise e', st3) => (Raise e', st3)
              end
            else (Raise (CalledProcessError err), st2)
        | (Raise e, st2) => (Raise e, st2)
        end
    | Raise (CalledProcessError err) =>
        if force then
          match _clean_stale_osd_data E st1 with
          | (Ok _, st2) => (Raise (CalledProcessError err), st2)
          | (Raise e', st2) => (Raise e', st2)
          end
        else (Raise (CalledProcessError err), st1)
    | Raise e => (Raise e, st1)
    end.
Proof.
  unfold remove_osd, try_except, bind at 1, external. simpl.
  destruct (remove_disk_cmd E osd_num force (world st)) as [[[] | e] w]; simpl.
  - destruct (_clean_stale_osd_data E (answered st (RemoveDisk osd_num force) w))
      as [[[] | e] st2]; [reflexivity |].
    destruct e; try reflexivity.
    unfold bind. destruct force; [| reflexivity].
    destruct (_clean_stale_osd_data E st2) as [[[] | e'] st3]; reflexivity.
  - destruct e; try reflexivity.
    unfold bind. destruct force; [| reflexivity].
    destruct (_clean_stale_osd_data E (answered st (RemoveDisk osd_num true) w))
      as [[[] | e'] st2]; reflexivity.
Qed.

(** C7 (amended).  [remove_osd] runs the stale cleanup right after the
    backend command when that command succeeds, and when it fails with
    a [CalledProcessError] under [force=True]; the error then
    propagates from the state the cleanup left.  When the command fails
    with [force=False], or fails with another exception, no cleanup is
    run: the error propagates from the state right after the command. *)
Theorem remove_osd_cleanup (osd_num : option Z) (force : bool) (st : St World) :
  let st1 := answered st (RemoveDisk osd_num force)
               (snd (remove_disk_cmd E osd_num force (world st))) in
  match fst (remove_disk_cmd E osd_num force (world st)) with
  | Ok _ =>
      (exists rest,
         calls (snd (remove_osd E osd_num force st)) = (calls st1 ++ ListDisk :: rest)%list) /\
      match fst (_clean_stale_osd_data E st1) with
      | Ok _ => remove_osd E osd_num force st = _clean_stale_osd_data E st1
      | Raise _ => exists e, fst (remove_osd E osd_num force st) = Raise e
      end
  | Raise (CalledProcessError err) =>
      if force then
        snd (remove_osd E osd_num force st) = snd (_clean_stale_osd_data E st1) /\
        fst (remove_osd E osd_num force st) =
          match fst (_clean_stale_osd_data E st1) with
          | Ok _ => Raise (CalledProcessError err)
          | Raise e' => Raise e'
          end
      else remove_osd E osd_num force st = (Raise (CalledProcessError err), st1)
  | Raise e => remove_osd E osd_num force st = (Raise e, st1)
  end.
Proof.
  intros st1. rewrite remove_osd_run. fold st1.
  destruct (fst (remove_disk_cmd E osd_num force (world st))) as [[] | e].
  - pose proof (clean_stale_osd_data_calls st1) as Hc1.
    destruct (_clean_stale_osd_data E st1) as [[[] | e] st2] eqn:Hclean; simpl in *.
    + split; [exists []; assumption | reflexivity].
    + destruct e;
        try (split; [exists []; assumption | eexists; reflexivity]).
      destruct force; [| split; [exists []; assumption | eexists; reflexivity]].
      pose proof (clean_stale_osd_data_calls st2) as Hc2.
      destruct (_clean_stale_osd_data E st2) as [[[] | e'] st3]; simpl in *;
        (split; [exists [ListDisk]; rewrite Hc2, Hc1, <- app_assoc; reflexivity
                | eexists; reflexivity]).
  - destruct e; try reflexivity.
    destruct force; [| reflexivity].
    destruct (_clean_stale_osd_data E st1) as [[[] | e'] st2]; split; reflexivity.
Qed.

End Removal.

(** C7 as claimed fails: a refused non-forced removal returns its error
    without a cleanup.  No listing is asked for, and OSD 9, which the
    cluster does not have, keeps its record. *)
Lemma remove_osd_unforced_failure_no_cleanup :
  let st := Scenario.start Scenario.osd5_stale9 Scenario.three_osds in
  remove_osd Scenario.env (Some 5) false st =
    (Raise (CalledProcessError Scenario.refusal),
     answered st (RemoveDisk (Some 5) false) Scenario.three_osds) /\
  ~ In ListDisk (calls (snd (remove_osd Scenario.env (Some 5) false st))) /\
  dict_get (osd_data (snd (remove_osd Scenario.env (Some 5) false st))) 9 =
    Some (Some (Scenario.record "osd-standalone/4" "vde")) /\
  int_in 9 (map osd (Scenario.configured Scenario.three_osds)) = false.
Proof.
  repeat split. simpl. intros [H | []]. discriminate.
Qed.

(** ** The detach handler *)

Section Detach.

Context {World : Type} (E : Env World).

Lemma remove_osd_first_call (osd_num : option Z) (force : bool) (st : St World) :
  exists rest,
    calls (snd (remove_osd E osd_num force st)) =
      (calls st ++ RemoveDisk osd_num force :: rest)%list.
Proof.
  rewrite remove_osd_run.
  set (st1 := answered st (RemoveDisk osd_num force)
                (snd (remove_disk_cmd E osd_num force (world st)))).
  assert (Hone : forall s : St World, calls s = (calls st1 ++ [ListDisk])%list ->
            calls s = (calls st ++ RemoveDisk osd_num force :: [ListDisk])%list).
  { intros s Hs. rewrite Hs. unfold st1, answered. simpl. now rewrite <- app_assoc. }
  assert (Htwo : forall s s2 : St World, calls s2 = (calls st1 ++ [ListDisk])%list ->
            calls s = (calls s2 ++ [ListDisk])%list ->
            calls s = (calls st ++ RemoveDisk osd_num force :: [ListDisk; ListDisk])%list).
  { intros s s2 H2 Hs. rewrite Hs, H2. unfold st1, answered. simpl.
    now rewrite <- !app_assoc. }
  pose proof (clean_stale_osd_data_calls E st1) as Hc1.
  destruct (fst (remove_disk_cmd E osd_num force (world st))) as [[] | e].
  - destruct (_clean_stale_osd_data E st1) as [[[] | e] st2]; simpl in Hc1.
    + eexists. simpl. now apply Hone.
    + pose proof (clean_stale_osd_data_calls E st2) as Hc2.
      destruct e; try (eexists; simpl; now apply Hone).
      destruct force; [| eexists; simpl; now apply Hone].
      destruct (_clean_stale_osd_data E st2) as [[[] | e'] st3]; simpl in Hc2;
        eexists; simpl; eapply Htwo; eassumption.
  - destruct e; try (exists []; reflexivity).
    destruct force; [| exists []; reflexivity].
    destruct (_clean_stale_osd_data E st1) as [[[] | e'] st2]; simpl in Hc1;
      eexists; simpl; now apply Hone.
Qed.

Lemma detach_guarded_first_call (full_id : string) (osd_num : option Z) (st : St World) :
  exists rest,
    calls (snd (detach_guarded E full_id osd_num st)) =
      (calls st ++ RemoveDisk osd_num false :: rest)%list.
Proof.
  unfold detach_guarded, try_except.
  destruct (remove_osd_first_call osd_num false st) as [rest Hrest].
  destruct (remove_osd E osd_num false st) as [[[] | e] st1]; simpl in Hrest.
  - now exists rest.
  - destruct e; try (now exists rest).
    destruct (_is_safety_failure stderr); [| now exists rest].
    unfold bind, raise.
    destruct (remove_osd_first_call osd_num true st1) as [rest' Hrest'].
    destruct (remove_osd E osd_num true st1) as [[[] | e] st2]; simpl in *;
      exists (rest ++ RemoveDisk osd_num true :: rest')%list;
      rewrite Hrest', Hrest, <- app_assoc; reflexivity.
Qed.

(** A failure of the non-forced removal that is not a safety failure is
    caught by the guarded block and dropped there. *)
Lemma detach_guarded_other_failure (full_id : string) (osd_num : option Z)
    (st : St World) (err : string) :
  fst (remove_disk_cmd E osd_num false (world st)) = Raise (CalledProcessError err) ->
  _is_safety_failure err = false ->
  detach_guarded E full_id osd_num st =
    (Ok tt, answered st (RemoveDisk osd_num false)
              (snd (remove_disk_cmd E osd_num false (world st)))).
Proof.
  intros Hfail Hsafe. unfold detach_guarded, try_except.
  rewrite remove_osd_run, Hfail. simpl. now rewrite Hsafe.
Qed.

(** On a safety failure the guarded block forces the removal once and
    raises the blocking error that names the OSD. *)
Lemma detach_guarded_safety_failure (full_id : string) (osd_num : option Z)
    (st : St World) (err : string) (disks : list ConfiguredDisk) :
  let w1 := snd (remove_disk_cmd E osd_num false (world st)) in
  let w2 := snd (remove_disk_cmd E osd_num true w1) in
  fst (remove_disk_cmd E osd_num false (world st)) = Raise (CalledProcessError err) ->
  _is_safety_failure err = true ->
  fst (remove_disk_cmd E osd_num true w1) = Ok tt ->
  fst (list_disk_cmd E w2) = Ok disks ->
  fst (detach_guarded E full_id osd_num st) =
    Raise (BlockedExceptionError (detach_warning full_id osd_num)) /\
  calls (snd (detach_guarded E full_id osd_num st)) =
    (calls st ++ [RemoveDisk osd_num false; RemoveDisk osd_num true; ListDisk])%list.
Proof.
  intros w1 w2 Hfail Hsafe Hforce Hlist. unfold detach_guarded, try_except.
  rewrite remove_osd_run, Hfail. simpl. rewrite Hsafe. unfold bind, raise.
  rewrite remove_osd_run. simpl. fold w1. rewrite Hforce. fold w2.
  rewrite clean_stale_osd_data_run. simpl.
  destruct (list_disk_cmd E w2) as [r w3]. simpl in Hlist. subst r. simpl.
  split; [reflexivity |]. now rewrite <- !app_assoc.
Qed.

(** As written, the handler returns at once when the storage backs an
    OSD, and goes on to the removal when it backs none. *)
Lemma on_storage_detaching_run (full_id : string) (st : St World) :
  _on_storage_detaching E full_id st =
    match _get_osd_id (osd_data st) full_id with
    | Raise e => (Raised e, st)
    | Ok (Some _) => (Returned, st)
    | Ok None => guard (detach_guarded E full_id None) st
    end.
Proof.
  unfold _on_storage_detaching.
  destruct (_get_osd_id (osd_data st) full_id) as [[k |] | e]; reflexivity.
Qed.


End Detach.



(** C1.  The handler as written does the opposite of the claim.  With
    OSD 5 made from [osd-standalone/2], detaching that storage returns
    without any call; detaching [osd-standalone/9], which backs no OSD,
    asks the backend to remove OSD [None]. *)
Theorem on_storage_detaching_guard_inverted :
  let st := Scenario.start Scenario.osd5 Scenario.three_osds in
  _get_osd_id (osd_data st) "osd-standalone/2" = Ok (Some 5) /\
  _on_storage_detaching Scenario.env "osd-standalone/2" st = (Returned, st) /\
  _get_osd_id (osd_data st) "osd-standalone/9" = Ok None /\
  calls (snd (_on_storage_detaching Scenario.env "osd-standalone/9" st)) =
    [RemoveDisk None false].
Proof. repeat split. Qed.

(** C2.  With three OSDs the backend refuses the non-forced removal of
    OSD 5 with a safety failure.  The guarded block, run for OSD 5,
    forces the removal once and raises the blocking error; but the
    handler, on the detach of the storage of OSD 5, returns before that
    block: no removal, forced or not, and no blocking error. *)
Theorem on_storage_detaching_never_escalates :
  let st := Scenario.start Scenario.osd5 Scenario.three_osds in
  _get_osd_id (osd_data st) "osd-standalone/2" = Ok (Some 5) /\
  fst (remove_disk_cmd Scenario.env (Some 5) false (world st)) =
    Raise (CalledProcessError Scenario.refusal) /\
  _is_safety_failure Scenario.refusal = true /\
  fst (detach_guarded Scenario.env "osd-standalone/2" (Some 5) st) =
    Raise (BlockedExceptionError
             "Storage osd-standalone/2 detached, provide replacement for osd.5.") /\
  calls (snd (detach_guarded Scenario.env "osd-standalone/2" (Some 5) st)) =
    [RemoveDisk (Some 5) false; RemoveDisk (Some 5) true; ListDisk] /\
  fst (_on_storage_detaching Scenario.env "osd-standalone/2" st) = Returned /\
  calls (snd (_on_storage_detaching Scenario.env "osd-standalone/2" st)) = [].
Proof. repeat split. Qed.

(** ** The attach handler *)

(** C9.  An attach event that arrives while the service is not ready is
    deferred and nothing else happens: the handler returns, no call is
    made to the backend or to the hook tools, and [osd_data], the world
    and the status are as before. *)
Theorem on_osd_standalone_attached_defers {World : Type} (E : Env World) (st : St World) :
  ready_for_service E (world st) = false ->
  let st' := snd (_on_osd_standalone_attached E st) in
  fst (_on_osd_standalone_attached E st) = Returned /\
  deferred st' = true /\
  calls st' = calls st /\
  osd_data st' = osd_data st /\
  world st' = world st /\
  statuses st' = statuses st.
Proof.
  intros Hready. unfold _on_osd_standalone_attached. rewrite Hready. simpl.
  repeat split.
Qed.

Lemma on_osd_standalone_attached_defers_witness :
  let st := Scenario.start [] Scenario.not_ready in
  let st' := snd (_on_osd_standalone_attached Scenario.env st) in
  ready_for_service Scenario.env (world st) = false /\
  fst (_on_osd_standalone_attached Scenario.env st) = Returned /\
  deferred st' = true /\
  calls st' = calls st /\
  osd_data st' = osd_data st /\
  world st' = world st /\
  statuses st' = statuses st.
Proof.
  split; [reflexivity |].
  exact (on_osd_standalone_attached_defers Scenario.env
           (Scenario.start [] Scenario.not_ready) eq_refl).
Defined.

(** ** The metadata queries *)

Section Metadata.

Context {World : Type} (E : Env World).

Lemma retry_loop_eq {A : Type} (w : Z) (more : nat) (f : M World A) :
  retry_loop w more f =
    try_except f
      (fun _ =>
         match more with
         | O => raise RetryError
         | S more' => bind (log_call (Sleep w)) (fun _ => retry_loop w more' f)
         end).
Proof. destruct more; reflexivity. Qed.

(** A decorated call makes between one and [more + 1] attempts, with a
    wait of [w] before each new one. *)
Lemma retry_loop_attempts {A : Type} (f : M World A) (c : call) (w : Z)
    (more : nat) (st : St World) :
  (forall s, calls (snd (f s)) = (calls s ++ [c])%list) ->
  exists n, (n <= more)%nat /\
    calls (snd (retry_loop w more f st)) = (calls st ++ attempts c w n)%list.
Proof.
  intros Hf. revert st. induction more as [| more IH]; intros st;
    rewrite retry_loop_eq; unfold try_except; specialize (Hf st) as Hst;
    destruct (f st) as [[a | e] s1]; simpl in Hst.
  - exists O. split; [lia | assumption].
  - exists O. split; [lia | assumption].
  - exists O. split; [lia | assumption].
  - unfold bind, log_call.
    match goal with |- context [retry_loop w more f ?s] => destruct (IH s) as [n [Hn Hcalls]] end.
    exists (S n). split; [lia |]. rewrite Hcalls. simpl. rewrite Hst.
    now rewrite <- !app_assoc.
Qed.

(** A decorated call that fails every time makes exactly [more + 1]
    attempts and ends in [RetryError]. *)
Lemma retry_loop_exhausted {A : Type} (f : M World A) (c : call) (w : Z)
    (more : nat) (st : St World) :
  (forall s, (exists e, fst (f s) = Raise e) /\ calls (snd (f s)) = (calls s ++ [c])%list) ->
  fst (retry_loop w more f st) = Raise RetryError /\
  calls (snd (retry_loop w more f st)) = (calls st ++ attempts c w more)%list.
Proof.
  intros Hf. revert st. induction more as [| more IH]; intros st;
    rewrite retry_loop_eq; unfold try_except; destruct (Hf st) as [[e0 He0] Hst];
    destruct (f st) as [[a | e] s1]; simpl in He0, Hst; try discriminate.
  - split; [reflexivity | assumption].
  - unfold bind, log_call.
    match goal with |- context [retry_loop w more f ?s] => destruct (IH s) as [Hr Hcalls] end.
    split; [assumption |]. rewrite Hcalls. simpl. rewrite Hst.
    now rewrite <- !app_assoc.
Qed.

Lemma run_json_run (args : list string) (st : St World) :
  run_json E args st =
    match run E args (world st) with
    | (Ok out, w) =>
        match json_loads E out with
        | Some j => (Ok j, answered st (Run args) w)
        | None => (Raise ValueError, answered st (Run args) w)
        end
    | (Raise e, w) => (Raise e, answered st (Run args) w)
    end.
Proof.
  unfold run_json, bind, _run, external.
  destruct (run E args (world st)) as [[out | e] w]; [| reflexivity].
  destruct (json_loads E out); reflexivity.
Qed.

Lemma storage_get_once_calls (storage_id attribute : option string) (st : St World) :
  calls (snd (storage_get_once E storage_id attribute st)) =
    (calls st ++ [Run (storage_get_args storage_id attribute)])%list.
Proof.
  unfold storage_get_once, try_except. rewrite run_json_run.
  destruct (run E _ (world st)) as [[out | e] w].
  - destruct (json_loads E out); reflexivity.
  - destruct e; reflexivity.
Qed.

Lemma storage_get_once_fails (storage_id attribute : option string) (st : St World)
    (err : string) :
  fst (run E (storage_get_args storage_id attribute) (world st)) =
    Raise (CalledProcessError err) ->
  fst (storage_get_once E storage_id attribute st) = Raise (CalledProcessError err).
Proof.
  intros Hrun. unfold storage_get_once, try_except. rewrite run_json_run.
  destruct (run E _ (world st)) as [r w]. simpl in Hrun. subst r. reflexivity.
Qed.

(** [juju_storage_get] makes at most ten attempts, five apart. *)
Lemma juju_storage_get_attempts (storage_id attribute : option string) (st : St World) :
  exists n, (n <= 9)%nat /\
    calls (snd (juju_storage_get E storage_id attribute st)) =
      (calls st ++ attempts (Run (storage_get_args storage_id attribute)) 5 n)%list.
Proof.
  apply retry_loop_attempts. intros s. apply storage_get_once_calls.
Qed.

(** [juju_storage_list] makes one attempt, whatever comes of it. *)
Lemma juju_storage_list_calls (storage_name : option string) (st : St World) :
  calls (snd (juju_storage_list E storage_name st)) =
    (calls st ++ [Run (storage_list_args storage_name)])%list.
Proof.
  unfold juju_storage_list, try_except. rewrite run_json_run.
  destruct (run E _ (world st)) as [[out | e] w].
  - destruct (json_loads E out); reflexivity.
  - destruct e; try reflexivity. simpl. destruct (Z.eqb errno ENOENT); reflexivity.
Qed.

(** C6 (amended).  Only [juju_storage_get] is retried.  When the hook
    tools fail on every call, [juju_storage_get] makes exactly ten
    attempts with a wait of 5 before each new one and then raises
    [RetryError]; [juju_storage_list] makes a single attempt and raises
    the failure of that attempt. *)
Theorem storage_queries_retry_bound (storage_id attribute storage_name : option string)
    (st : St World) :
  (forall cmd w, exists err, fst (run E cmd w) = Raise (CalledProcessError err)) ->
  let get := Run (storage_get_args storage_id attribute) in
  let wait := Sleep 5 in
  (fst (juju_storage_get E storage_id attribute st) = Raise RetryError /\
   calls (snd (juju_storage_get E storage_id attribute st)) =
     (calls st ++ [get; wait; get; wait; get; wait; get; wait; get; wait;
                   get; wait; get; wait; get; wait; get; wait; get])%list) /\
  ((exists err,
      fst (juju_storage_list E storage_name st) = Raise (CalledProcessError err)) /\
   calls (snd (juju_storage_list E storage_name st)) =
     (calls st ++ [Run (storage_list_args storage_name)])%list).
Proof.
  intros Hfail get wait. split.
  - apply (retry_loop_exhausted (storage_get_once E storage_id attribute) get 5 9 st).
    intros s. split; [| apply storage_get_once_calls].
    destruct (Hfail (storage_get_args storage_id attribute) (world s)) as [err Herr].
    exists (CalledProcessError err). now apply storage_get_once_fails.
  - split; [| apply juju_storage_list_calls].
    destruct (Hfail (storage_list_args storage_name) (world st)) as [err Herr].
    exists err. unfold juju_storage_list, try_except. rewrite run_json_run.
    destruct (run E _ (world st)) as [r w]. simpl in Herr. subst r. reflexivity.
Qed.

End Metadata.

Lemma storage_queries_retry_bound_witness :
  let st := Scenario.start [] Scenario.fresh_node in
  let get := Run ["storage-get"; "--format=json"; "-s"; "osd-standalone/0"; "location"] in
  let wait := Sleep 5 in
  (forall cmd w, exists err,
      fst (run Scenario.env_offline cmd w) = Raise (CalledProcessError err)) /\
  (fst (juju_storage_get Scenario.env_offline (Some "osd-standalone/0") (Some "location") st) =
     Raise RetryError /\
   calls (snd (juju_storage_get Scenario.env_offline
                 (Some "osd-standalone/0") (Some "location") st)) =
     (calls st ++ [get; wait; get; wait; get; wait; get; wait; get; wait;
                   get; wait; get; wait; get; wait; get; wait; get])%list) /\
  ((exists err,
      fst (juju_storage_list Scenario.env_offline None st) = Raise (CalledProcessError err)) /\
   calls (snd (juju_storage_list Scenario.env_offline None st)) =
     (calls st ++ [Run ["storage-list"; "--format=json"]])%list).
Proof.
  assert (Hoffline : forall cmd w, exists err,
            fst (run Scenario.env_offline cmd w) = Raise (CalledProcessError err)).
  { intros cmd w. exists Scenario.not_found. reflexivity. }
  split; [exact Hoffline |].
  exact (storage_queries_retry_bound Scenario.env_offline
           (Some "osd-standalone/0") (Some "location") None
           (Scenario.start [] Scenario.fresh_node) Hoffline).
Defined.

(** C6 as claimed fails for the listing: with hook tools that fail on
    every call, [juju_storage_list] gives up after one attempt, not
    ten. *)
Lemma juju_storage_list_not_retried :
  let st := Scenario.start [] Scenario.fresh_node in
  juju_storage_list Scenario.env_offline None st =
    (Raise (CalledProcessError Scenario.not_found),
     answered st (Run ["storage-list"; "--format=json"]) Scenario.fresh_node) /\
  calls (snd (juju_storage_list Scenario.env_offline None st)) =
    [Run ["storage-list"; "--format=json"]].
Proof. split; reflexivity. Qed.

(** ** The enrollment set *)

Section Enrollment.

Context {World : Type} (E : Env World).

(** What the loop keeps: the storages for which [not _get_osd_id(...)]
    holds, that is those with no OSD and those of OSD 0. *)
Lemma enroll_loop_run (storages enroll : list string) (st : St World) :
  (forall s, In s storages -> exists x, _get_osd_id (osd_data st) s = Ok x) ->
  enroll_loop storages enroll st =
    (Ok (enroll ++ filter (fun s => match _get_osd_id (osd_data st) s with
                                    | Ok x => py_not x
                                    | Raise _ => false
                                    end) storages)%list, st).
Proof.
  revert enroll. induction storages as [| s storages IH]; intros enroll Hok; simpl.
  - unfold ret. now rewrite app_nil_r.
  - unfold bind at 1, get_osd_data. unfold bind at 1, lift.
    destruct (Hok s (or_introl eq_refl)) as [x Hx]. rewrite Hx.
    rewrite IH by (intros s' Hs'; apply Hok; now right).
    destruct (py_not x); [| reflexivity].
    now rewrite <- app_assoc.
Qed.

(** A storage whose OSD has a number other than 0 is not enrolled
    again. *)
Lemma enroll_loop_skips_nonzero (storages : list string) (st : St World)
    (s : string) (k : Z) :
  (forall s, In s storages -> exists x, _get_osd_id (osd_data st) s = Ok x) ->
  _get_osd_id (osd_data st) s = Ok (Some k) ->
  k <> 0 ->
  forall enroll, fst (enroll_loop storages [] st) = Ok enroll -> ~ In s enroll.
Proof.
  intros Hok Hs Hk enroll Hrun. rewrite enroll_loop_run in Hrun by assumption.
  simpl in Hrun. inversion Hrun; subst. intros Hin.
  apply filter_In in Hin. destruct Hin as [_ Hkeep]. rewrite Hs in Hkeep.
  simpl in Hkeep. apply Z.eqb_eq in Hkeep. contradiction.
Qed.

End Enrollment.

(** C4.  The attach handler is not idempotent for OSD 0.  On a fresh
    node the first delivery enrolls [/dev/vdb] and records it as OSD 0
    under [osd-standalone/0]; on the second delivery [_get_osd_id]
    finds OSD 0 for that storage, yet the enrollment set holds the
    storage again and the disk is given to the backend a second time. *)
Theorem attach_redelivery_enrolls_osd_zero_again :
  let st0 := Scenario.start [] Scenario.fresh_node in
  let st1 := snd (_on_osd_standalone_attached Scenario.env st0) in
  fst (_on_osd_standalone_attached Scenario.env st0) = Returned /\
  osd_data st1 = [(0, Some (Scenario.record "osd-standalone/0" "vdb"))] /\
  _get_osd_id (osd_data st1) "osd-standalone/0" = Ok (Some 0) /\
  fst (bind (_clean_stale_osd_data Scenario.env)
         (fun _ => enrollment_set Scenario.env) st1) = Ok ["osd-standalone/0"] /\
  In (EnrollDisks [JStr "/dev/vdb"])
    (skipn (List.length (calls st1))
       (calls (snd (_on_osd_standalone_attached Scenario.env st1)))).
Proof. repeat split. simpl. tauto. Qed.

(** * Further properties of the handler *)

(** ** Strings: the safety test and the directive of a storage name *)

Lemma prefix_app (a b : string) :
  String.prefix a b = true <-> exists post, b = a ++ post.
Proof.
  revert b. induction a as [| c a IH]; intros b.
  - split; [intros _; now exists b | intros _; now destruct b].
  - destruct b as [| c' b]; simpl.
    + split; [discriminate | intros [post H]; discriminate].
    + destruct (ascii_dec c c') as [-> | Hne].
      * rewrite IH. split; intros [post H]; exists post.
        -- now rewrite H.
        -- now inversion H.
      * split; [discriminate |]. intros [post H]. inversion H. congruence.
Qed.

Lemma str_in_app (needle hay : string) :
  str_in needle hay = true <-> exists pre post, hay = pre ++ needle ++ post.
Proof.
  assert (Hhead : forall h post, h = needle ++ post -> String.prefix needle h = true)
    by (intros h post H; apply prefix_app; now exists post).
  induction hay as [| c hay IH].
  - change (str_in needle EmptyString)
      with (if String.prefix needle EmptyString then true else false).
    destruct (String.prefix needle EmptyString) eqn:Hp.
    + split; [| reflexivity]. intros _. apply prefix_app in Hp.
      destruct Hp as [post Hpost]. now exists EmptyString, post.
    + split; [discriminate |]. intros [pre [post H]].
      destruct pre; [| discriminate]. simpl in H.
      rewrite (Hhead _ _ H) in Hp. discriminate.
  - change (str_in needle (String c hay))
      with (if String.prefix needle (String c hay) then true else str_in needle hay).
    destruct (String.prefix needle (String c hay)) eqn:Hp.
    + split; [| reflexivity]. intros _. apply prefix_app in Hp.
      destruct Hp as [post Hpost]. now exists EmptyString, post.
    + rewrite IH. split.
      * intros [pre [post H]]. exists (String c pre), post. simpl. now rewrite H.
      * intros [pre [post H]]. destruct pre as [| c' pre].
        -- simpl in H. rewrite (Hhead _ _ H) in Hp. discriminate.
        -- simpl in H. inversion H. now exists pre, post.
Qed.

(** X1.  [_is_safety_failure] holds exactly for the outputs that have
    the text [need at least 3 OSDs] somewhere in them. *)
Theorem is_safety_failure_iff (err : string) :
  _is_safety_failure err = true <->
  exists pre post, err = pre ++ "need at least 3 OSDs" ++ post.
Proof. unfold _is_safety_failure. apply str_in_app. Qed.

(** X2.  The directive of a storage name: a name without a slash is its
    own directive, and [directive/index] has the directive [directive]
    whatever the index is. *)
Theorem split_head_directive (directive : string) :
  ~ In "/"%char (list_ascii_of_string directive) ->
  split_head directive = directive /\
  forall index, split_head (directive ++ "/" ++ index) = directive.
Proof.
  induction directive as [| c directive IH]; simpl; intros Hno.
  - split; reflexivity.
  - destruct (Ascii.eqb_spec c "/") as [-> | Hne].
    + exfalso. apply Hno. now left.
    + destruct IH as [IH1 IH2]; [intros H; apply Hno; now right |].
      split; [now rewrite IH1 |].
      intros index. specialize (IH2 index). simpl in IH2. now rewrite IH2.
Qed.

Lemma split_head_directive_witness :
  ~ In "/"%char (list_ascii_of_string "osd-standalone") /\
  split_head "osd-standalone" = "osd-standalone" /\
  forall index, split_head ("osd-standalone" ++ "/" ++ index) = "osd-standalone".
Proof.
  assert (Hno : ~ In "/"%char (list_ascii_of_string "osd-standalone")).
  { simpl. intros H. repeat (destruct H as [H | H]; [discriminate |]). exact H. }
  split; [exact Hno |].
  exact (split_head_directive "osd-standalone" Hno).
Defined.

(** ** Handle resolution, continued *)

(** X3.  For a storage of the [osd-standalone] directive [_get_osd_id]
    never raises.  It returns the key of the first entry, in the order
    of the dictionary, whose record has that storage as its [disk];
    it returns [None] exactly when no record has. *)
Theorem get_osd_id_standalone (d : dict) (name : string) :
  split_head name = standalone ->
  match _get_osd_id d name with
  | Ok (Some k) =>
      exists before v after,
        d = (before ++ (k, Some v) :: after)%list /\ disk v = name /\
        forall k' v', In (k', Some v') before -> disk v' <> name
  | Ok None => forall k v, In (k, Some v) d -> disk v <> name
  | Raise _ => False
  end.
Proof.
  intros Hdir. unfold _get_osd_id. rewrite Hdir. simpl.
  induction d as [| [k0 [v0 |]] d IH]; simpl.
  - intros k v [].
  - destruct (String.eqb_spec (disk v0) name) as [Heq | Hne].
    + exists [], v0, d. repeat split; [assumption | intros k' v' []].
    + destruct (find_osd d "disk" name) as [[k |] | e].
      * destruct IH as [before [v [after [Hd [Hv Hfirst]]]]].
        exists ((k0, Some v0) :: before)%list, v, after. repeat split.
        -- simpl. now rewrite Hd.
        -- assumption.
        -- intros k' v' [Hin | Hin]; [inversion Hin; now subst | eauto].
      * intros k v [Hin | Hin]; [inversion Hin; now subst | eauto].
      * assumption.
  - destruct (find_osd d "disk" name) as [[k |] | e].
    + destruct IH as [before [v [after [Hd [Hv Hfirst]]]]].
      exists ((k0, None) :: before)%list, v, after. repeat split.
      * simpl. now rewrite Hd.
      * assumption.
      * intros k' v' [Hin | Hin]; [discriminate | eauto].
    + intros k v [Hin | Hin]; [discriminate | eauto].
    + assumption.
Qed.

Lemma get_osd_id_standalone_witness :
  let d := [(3, None); (5, Some (Scenario.record "osd-standalone/2" "vdc"));
            (6, Some (Scenario.record "osd-standalone/2" "vdd"))] in
  split_head "osd-standalone/2" = standalone /\
  match _get_osd_id d "osd-standalone/2" with
  | Ok (Some k) =>
      exists before v after,
        d = (before ++ (k, Some v) :: after)%list /\ disk v = "osd-standalone/2" /\
        forall k' v', In (k', Some v') before -> disk v' <> "osd-standalone/2"
  | Ok None => forall k v, In (k, Some v) d -> disk v <> "osd-standalone/2"
  | Raise _ => False
  end.
Proof.
  split; [reflexivity |].
  exact (get_osd_id_standalone
           [(3, None); (5, Some (Scenario.record "osd-standalone/2" "vdc"));
            (6, Some (Scenario.record "osd-standalone/2" "vdd"))]
           "osd-standalone/2" eq_refl).
Defined.

(** X4.  A storage name whose directive is neither [osd-standalone] nor
    one of the keys of a record ([disk_by_id], [disk], [db]) cannot be
    looked up: [_get_osd_id] raises [KeyError] on that directive as
    soon as the dictionary holds one record, and returns [None] only
    when it holds none. *)
Theorem get_osd_id_unknown_directive (d : dict) (name : string) :
  split_head name <> standalone ->
  split_head name <> "disk_by_id" ->
  split_head name <> "disk" ->
  split_head name <> "db" ->
  _get_osd_id d name =
    match live d with
    | [] => Ok None
    | _ :: _ => Raise (KeyError (split_head name))
    end.
Proof.
  intros H1 H2 H3 H4. unfold _get_osd_id.
  destruct (String.eqb_spec (split_head name) standalone) as [Heq | _]; [contradiction |].
  induction d as [| [k [v |]] d IH]; simpl; [reflexivity | | assumption].
  unfold record_get.
  destruct (String.eqb_spec (split_head name) "disk_by_id") as [Heq | _]; [contradiction |].
  destruct (String.eqb_spec (split_head name) "disk") as [Heq | _]; [contradiction |].
  destruct (String.eqb_spec (split_head name) "db") as [Heq | _]; [contradiction |].
  reflexivity.
Qed.

Lemma get_osd_id_unknown_directive_witness :
  split_head "cache/1" <> standalone /\
  _get_osd_id Scenario.osd5 "cache/1" = Raise (KeyError "cache").
Proof.
  split; [discriminate |].
  exact (get_osd_id_unknown_directive Scenario.osd5 "cache/1"
           ltac:(discriminate) ltac:(discriminate) ltac:(discriminate) ltac:(discriminate)).
Defined.

(** ** What a method leaves behind, step by step *)

Section Preserves.

Context {World : Type} (R : St World -> St World -> Prop).
Hypothesis R_refl : forall st, R st st.
Hypothesis R_trans : forall a b c, R a b -> R b c -> R a c.

Lemma preserves_ret {A : Type} (a : A) : preserves R (ret a).
Proof. intros st. apply R_refl. Qed.

Lemma preserves_raise {A : Type} (e : exn) : preserves R (@raise World A e).
Proof. intros st. apply R_refl. Qed.

Lemma preserves_lift {A : Type} (r : result A) : preserves R (lift r).
Proof. intros st. apply R_refl. Qed.

Lemma preserves_get_osd_data : preserves R get_osd_data.
Proof. intros st. apply R_refl. Qed.

Lemma preserves_bind {A B : Type} (m : M World A) (f : A -> M World B) :
  preserves R m -> (forall a, preserves R (f a)) -> preserves R (bind m f).
Proof.
  intros Hm Hf st. unfold bind. specialize (Hm st).
  destruct (m st) as [[a | e] st1]; simpl in Hm; [| assumption].
  eapply R_trans; [eassumption | apply Hf].
Qed.

Lemma preserves_try_except {A : Type} (m : M World A) (h : exn -> M World A) :
  preserves R m -> (forall e, preserves R (h e)) -> preserves R (try_except m h).
Proof.
  intros Hm Hh st. unfold try_except. specialize (Hm st).
  destruct (m st) as [[a | e] st1]; simpl in Hm; [assumption |].
  eapply R_trans; [eassumption | apply Hh].
Qed.

Lemma preserves_for_each {A : Type} (l : list A) (body : A -> M World unit) :
  (forall x, In x l -> preserves R (body x)) -> preserves R (for_each l body).
Proof.
  induction l as [| x l IH]; intros Hbody; simpl.
  - apply preserves_ret.
  - apply preserves_bind; [apply Hbody; now left |].
    intros _. apply IH. intros y Hy. apply Hbody. now right.
Qed.

Lemma preserves_map_m {A B : Type} (f : A -> M World B) (l : list A) :
  (forall x, In x l -> preserves R (f x)) -> preserves R (map_m f l).
Proof.
  induction l as [| x l IH]; intros Hf; simpl.
  - apply preserves_ret.
  - apply preserves_bind; [apply Hf; now left |]. intros y.
    apply preserves_bind; [apply IH; intros z Hz; apply Hf; now right |].
    intros ys. apply preserves_ret.
Qed.

Lemma preserves_retry_loop {A : Type} (w : Z) (more : nat) (f : M World A) :
  preserves R (log_call (Sleep w)) -> preserves R f -> preserves R (retry_loop w more f).
Proof.
  intros Hsleep Hf. induction more as [| more IH]; rewrite retry_loop_eq;
    apply preserves_try_except; try assumption; intros _.
  - apply preserves_raise.
  - apply preserves_bind; [assumption | intros _; assumption].
Qed.

Lemma preserves_guard (body : M World unit) (st : St World) :
  preserves R body -> R st (snd (guard body st)).
Proof.
  intros Hbody. unfold guard. specialize (Hbody st).
  destruct (body st) as [[[] | e] st1]; assumption.
Qed.

End Preserves.

(** The loop of [_fetch_filtered_storages] changes nothing: it filters. *)
Lemma fetch_loop_run {World : Type} (directives : list string) (ds : list json)
    (filtered : list string) (st : St World) :
  (fix loop (ds : list json) (filtered : list string) : M World (list string) :=
     match ds with
     | [] => ret filtered
     | JStr device :: ds' =>
         loop ds' (if list_in (split_head device) directives
                   then (filtered ++ [device])%list else filtered)
     | _ :: _ => raise AttributeError
     end) ds filtered st = (filter_devices directives ds filtered, st).
Proof.
  revert filtered. induction ds as [| d ds IH]; intros filtered; [reflexivity |].
  destruct d; try reflexivity. simpl. apply IH.
Qed.

Ltac frame_step :=
  match goal with
  | |- preserves _ (ret _) => apply preserves_ret; assumption
  | |- preserves _ (raise _) => apply preserves_raise; assumption
  | |- preserves _ (lift _) => apply preserves_lift; assumption
  | |- preserves _ get_osd_data => apply preserves_get_osd_data; assumption
  | |- preserves _ (bind _ _) => apply preserves_bind; [assumption | | intro]
  | |- preserves _ (try_except _ _) => apply preserves_try_except; [assumption | | intro]
  | |- preserves _ (if ?b then _ else _) => destruct b
  | |- preserves _ (match ?x with _ => _ end) => destruct x
  end.

(** The methods, for a relation [R] that every step keeps: calls that
    [ok] accepts, a status change, the cleanup and the write of a
    record. *)
Section Frame.

Context {World : Type} (E : Env World).
Context (R : St World -> St World -> Prop) (ok : call -> bool).
Hypothesis R_refl : forall st, R st st.
Hypothesis R_trans : forall a b c, R a b -> R b c -> R a c.
Hypothesis R_external : forall (A : Type) (c : call) (f : World -> result A * World),
  ok c = true -> preserves R (external c f).
Hypothesis R_log : forall c, ok c = true -> preserves R (log_call c).
Hypothesis R_status : forall s, preserves R (@set_status World s).

Lemma frame_run_json (args : list string) :
  ok (Run args) = true -> preserves R (run_json E args).
Proof.
  intros Hok. unfold run_json, _run. frame_step; [now apply R_external |].
  repeat frame_step.
Qed.

Lemma frame_juju_storage_get (storage_id attribute : option string) :
  (forall cmd, ok (Run cmd) = true) -> ok (Sleep 5) = true ->
  preserves R (juju_storage_get E storage_id attribute).
Proof.
  intros Hrun Hsleep. unfold juju_storage_get, retry.
  apply preserves_retry_loop; try assumption; [now apply R_log |].
  unfold storage_get_once. frame_step; [now apply frame_run_json |].
  repeat frame_step.
Qed.

Lemma frame_juju_storage_list (storage_name : option string) :
  (forall cmd, ok (Run cmd) = true) ->
  preserves R (juju_storage_list E storage_name).
Proof.
  intros Hrun. unfold juju_storage_list. frame_step; [now apply frame_run_json |].
  repeat frame_step.
Qed.

Lemma frame_fetch_filtered_storages (directives : list string) :
  (forall cmd, ok (Run cmd) = true) ->
  preserves R (_fetch_filtered_storages E directives).
Proof.
  intros Hrun. unfold _fetch_filtered_storages.
  frame_step; [now apply frame_juju_storage_list |].
  frame_step; [frame_step |].
  intros st. rewrite fetch_loop_run. apply R_refl.
Qed.

Lemma frame_enroll_loop (storages enroll : list string) :
  preserves R (@enroll_loop World storages enroll).
Proof.
  revert enroll. induction storages as [| s storages IH]; intros enroll; simpl.
  - frame_step.
  - frame_step; [frame_step |]. frame_step; [frame_step |]. apply IH.
Qed.

Lemma frame_enrollment_set :
  (forall cmd, ok (Run cmd) = true) -> preserves R (enrollment_set E).
Proof.
  intros Hrun. unfold enrollment_set.
  frame_step; [now apply frame_fetch_filtered_storages | apply frame_enroll_loop].
Qed.

Hypothesis R_clean : ok ListDisk = true -> preserves R (_clean_stale_osd_data E).

Lemma frame_remove_osd (osd_num : option Z) (force : bool) :
  ok (RemoveDisk osd_num force) = true -> ok ListDisk = true ->
  preserves R (remove_osd E osd_num force).
Proof.
  intros Hremove Hlist. unfold remove_osd.
  frame_step.
  - frame_step; [now apply R_external | now apply R_clean].
  - destruct e; try solve [frame_step].
    frame_step; [| frame_step].
    frame_step; [now apply R_clean | frame_step].
Qed.

Lemma frame_detach_guarded (full_id : string) (osd_num : option Z) :
  (forall force, ok (RemoveDisk osd_num force) = true) -> ok ListDisk = true ->
  preserves R (detach_guarded E full_id osd_num).
Proof.
  intros Hremove Hlist. unfold detach_guarded.
  frame_step; [now apply frame_remove_osd |].
  destruct e; try solve [frame_step].
  frame_step; [| frame_step].
  frame_step; [now apply frame_remove_osd | frame_step].
Qed.

Lemma frame_on_storage_detaching (full_id : string) (st : St World) :
  (forall osd_num force, ok (RemoveDisk osd_num force) = true) -> ok ListDisk = true ->
  R st (snd (_on_storage_detaching E full_id st)).
Proof.
  intros Hremove Hlist. rewrite on_storage_detaching_run.
  destruct (_get_osd_id (osd_data st) full_id) as [[k |] | e]; try apply R_refl.
  apply preserves_guard. apply frame_detach_guarded; auto.
Qed.

Hypothesis ok_hooks : forall cmd, ok (Run cmd) = true.
Hypothesis ok_sleep : ok (Sleep 5) = true.
Hypothesis ok_list : ok ListDisk = true.
Hypothesis ok_info : forall by_id, ok (GetDiskInfo by_id) = true.
Hypothesis ok_enroll : forall paths, ok (EnrollDisks paths) = true.

Lemma frame_save_osd_data (disk_name : string) (db_name : option string) :
  keeps_write R disk_name db_name ->
  preserves R (_save_osd_data E disk_name db_name).
Proof.
  intros Hwrite. unfold _save_osd_data.
  frame_step; [now apply frame_juju_storage_get |].
  frame_step; [now apply R_external |].
  apply preserves_for_each; try assumption. intros o _.
  frame_step; [now apply R_external |].
  frame_step; [| frame_step].
  frame_step; [frame_step |].
  frame_step; [apply Hwrite | frame_step].
Qed.

Lemma frame_attach_guarded (enroll : list string) :
  (forall d, In d enroll -> keeps_write R d None) ->
  preserves R (attach_guarded E enroll).
Proof.
  intros Hwrite. unfold attach_guarded, _enroll_disks_in_batch.
  frame_step; [apply R_status |].
  frame_step; [| apply R_status].
  frame_step.
  - apply preserves_map_m; try assumption. intros d _. now apply frame_juju_storage_get.
  - frame_step; [now apply R_external |].
    apply preserves_for_each; try assumption. intros d Hd.
    apply frame_save_osd_data. now apply Hwrite.
Qed.

Lemma frame_on_osd_standalone_attached (st : St World) :
  R st (defer st) ->
  (forall st1 enroll, fst (enrollment_set E st1) = Ok enroll ->
                      forall d, In d enroll -> keeps_write R d None) ->
  R st (snd (_on_osd_standalone_attached E st)).
Proof.
  intros Hdefer Hwrite. unfold _on_osd_standalone_attached.
  destruct (negb (ready_for_service E (world st))); [assumption |].
  assert (Hpre : preserves R (bind (_clean_stale_osd_data E) (fun _ => enrollment_set E))).
  { frame_step; [now apply R_clean | now apply frame_enrollment_set]. }
  specialize (Hpre st).
  assert (Hfrom : forall enroll,
            fst (bind (_clean_stale_osd_data E) (fun _ => enrollment_set E) st) = Ok enroll ->
            exists st1, fst (enrollment_set E st1) = Ok enroll).
  { unfold bind at 1. intros enroll.
    destruct (_clean_stale_osd_data E st) as [[[] | e] st1]; simpl; [| discriminate].
    intros H. now exists st1. }
  destruct (bind (_clean_stale_osd_data E) (fun _ => enrollment_set E) st)
    as [[enroll | e] st'] eqn:Hrun; simpl in *; [| assumption].
  eapply R_trans; [eassumption |].
  apply preserves_guard. apply frame_attach_guarded.
  destruct (Hfrom enroll eq_refl) as [st1 Hst1]. intros d Hd. eapply Hwrite; eassumption.
Qed.

End Frame.

(** ** The calls a handler makes *)

Section Calls.

Context {World : Type} (E : Env World) (P : call -> bool).

Lemma only_calls_refl (st : St World) : only_calls P st st.
Proof. exists []. split; [now rewrite app_nil_r | reflexivity]. Qed.

Lemma only_calls_trans (a b c : St World) :
  only_calls P a b -> only_calls P b c -> only_calls P a c.
Proof.
  intros [l1 [H1 P1]] [l2 [H2 P2]]. exists (l1 ++ l2)%list. split.
  - now rewrite H2, H1, app_assoc.
  - now rewrite forallb_app, P1, P2.
Qed.

Lemma only_calls_same (st st' : St World) :
  calls st' = calls st -> only_calls P st st'.
Proof. intros H. exists []. split; [now rewrite app_nil_r | reflexivity]. Qed.

Lemma only_calls_external (A : Type) (c : call) (f : World -> result A * World) :
  P c = true -> preserves (only_calls P) (external c f).
Proof.
  intros HP st. unfold external. destruct (f (world st)) as [r w]. simpl.
  exists [c]. split; [reflexivity | simpl; now rewrite HP].
Qed.

Lemma only_calls_log (c : call) :
  P c = true -> preserves (only_calls P) (@log_call World c).
Proof. intros HP st. exists [c]. split; [reflexivity | simpl; now rewrite HP]. Qed.

Lemma only_calls_status (s : status) : preserves (only_calls P) (@set_status World s).
Proof. intros st. now apply only_calls_same. Qed.

Lemma only_calls_clean :
  P ListDisk = true -> preserves (only_calls P) (_clean_stale_osd_data E).
Proof.
  intros HP st. exists [ListDisk]. split; [apply clean_stale_osd_data_calls |].
  simpl. now rewrite HP.
Qed.

Lemma only_calls_write (disk_name : string) (db_name : option string) :
  keeps_write (@only_calls World P) disk_name db_name.
Proof. intros o st. now apply only_calls_same. Qed.

End Calls.

(** X5.  Whatever the registry and the backend, the detach handler only
    talks to the backend, through [remove_disk_cmd] and
    [list_disk_cmd]: it runs no hook tool, enrolls nothing and never
    waits. *)
Theorem on_storage_detaching_calls {World : Type} (E : Env World)
    (full_id : string) (st : St World) :
  exists l,
    calls (snd (_on_storage_detaching E full_id st)) = (calls st ++ l)%list /\
    forallb removal_or_listing l = true.
Proof.
  apply (frame_on_storage_detaching E (only_calls removal_or_listing) removal_or_listing);
    first [ apply only_calls_refl | apply only_calls_trans | apply only_calls_external
          | apply only_calls_clean | reflexivity ].
Qed.

(** X6.  Whatever the registry, the backend and the hook tools, the
    attach handler never asks the backend to remove an OSD. *)
Theorem on_osd_standalone_attached_never_removes {World : Type} (E : Env World)
    (st : St World) :
  exists l,
    calls (snd (_on_osd_standalone_attached E st)) = (calls st ++ l)%list /\
    forallb not_removal l = true.
Proof.
  apply (frame_on_osd_standalone_attached E (only_calls not_removal) not_removal);
    first [ apply only_calls_refl | apply only_calls_trans | apply only_calls_external
          | apply only_calls_log | apply only_calls_status | apply only_calls_clean
          | reflexivity | now apply only_calls_same
          | intros; apply only_calls_write ].
Qed.

(** ** What a handler does to the registry *)

Section Registry.

Context {World : Type} (E : Env World).

Lemma only_tombstones_same (st st' : St World) :
  osd_data st' = osd_data st -> only_tombstones st st'.
Proof. intros H. unfold only_tombstones. rewrite H. split; [reflexivity | now left]. Qed.

Lemma only_tombstones_refl (st : St World) : only_tombstones st st.
Proof. now apply only_tombstones_same. Qed.

Lemma only_tombstones_trans (a b c : St World) :
  only_tombstones a b -> only_tombstones b c -> only_tombstones a c.
Proof.
  intros [K1 V1] [K2 V2]. split; [congruence |].
  intros k. destruct (V2 k) as [H2 | H2]; [| now right].
  rewrite H2. apply V1.
Qed.

Lemma only_tombstones_external (A : Type) (c : call) (f : World -> result A * World) :
  true = true -> preserves only_tombstones (external c f).
Proof.
  intros _ st. unfold external. destruct (f (world st)) as [r w].
  now apply only_tombstones_same.
Qed.

Lemma only_tombstones_clean :
  true = true -> preserves only_tombstones (_clean_stale_osd_data E).
Proof.
  intros _ st. rewrite clean_stale_osd_data_run.
  destruct (list_disk_cmd E (world st)) as [[disks | e] w]; simpl;
    [| now apply only_tombstones_same].
  split; simpl.
  - apply keys_clean_loop, incl_refl.
  - intros k. rewrite dict_get_clean_loop by apply incl_refl.
    destruct (int_in k (keys (osd_data st)) && negb (int_in k (map osd disks)));
      [now right | now left].
Qed.

Lemma only_standalone_records_same (st st' : St World) :
  osd_data st' = osd_data st -> only_standalone_records st st'.
Proof. intros H k v Hv. left. now rewrite <- H. Qed.

Lemma only_standalone_records_refl (st : St World) : only_standalone_records st st.
Proof. now apply only_standalone_records_same. Qed.

Lemma only_standalone_records_trans (a b c : St World) :
  only_standalone_records a b -> only_standalone_records b c ->
  only_standalone_records a c.
Proof.
  intros H1 H2 k v Hv. destruct (H2 k v Hv) as [Hb | Hnew]; [now apply H1 | now right].
Qed.

Lemma only_standalone_records_external (A : Type) (c : call)
    (f : World -> result A * World) :
  true = true -> preserves only_standalone_records (external c f).
Proof.
  intros _ st. unfold external. destruct (f (world st)) as [r w].
  now apply only_standalone_records_same.
Qed.

Lemma only_standalone_records_clean :
  true = true -> preserves only_standalone_records (_clean_stale_osd_data E).
Proof.
  intros _ st k v Hv. left.
  destruct (only_tombstones_clean eq_refl st) as [_ Hk].
  destruct (Hk k) as [H | H]; congruence.
Qed.

Lemma only_standalone_records_write (disk_name : string) :
  split_head disk_name = standalone ->
  keeps_write (@only_standalone_records World) disk_name None.
Proof.
  intros Hdir o st k v. unfold bind, get_osd_data, put_osd_data. simpl.
  rewrite dict_get_set. destruct (Z.eqb (osd o) k); [| now left].
  intros Hv. inversion Hv. right. now split.
Qed.

Lemma filter_devices_sound (directives : list string) (ds : list json)
    (filtered l : list string) :
  filter_devices directives ds filtered = Ok l ->
  forall s, In s l -> In s filtered \/ list_in (split_head s) directives = true.
Proof.
  revert filtered. induction ds as [| d ds IH]; simpl; intros filtered Hrun s Hs.
  - inversion Hrun; subst. now left.
  - destruct d; try discriminate.
    destruct (IH _ Hrun s Hs) as [Hin | Hdir]; [| now right].
    destruct (list_in (split_head s0) directives) eqn:Hd; [| now left].
    apply in_app_or in Hin. destruct Hin as [Hin | [<- | []]]; [now left | now right].
Qed.

Lemma fetch_filtered_storages_sound (directives l : list string) (st : St World) :
  fst (_fetch_filtered_storages E directives st) = Ok l ->
  forall s, In s l -> list_in (split_head s) directives = true.
Proof.
  unfold _fetch_filtered_storages, bind.
  destruct (juju_storage_list E None st) as [[listing | e] st1]; [| discriminate].
  unfold lift at 1. destruct (py_iter listing) as [devices | e]; [| discriminate].
  rewrite fetch_loop_run. simpl. intros Hrun s Hs.
  destruct (filter_devices_sound _ _ _ _ Hrun s Hs) as [[] | H]. exact H.
Qed.

Lemma enroll_loop_sound (storages enroll l : list string) (st : St World) :
  fst (enroll_loop storages enroll st) = Ok l ->
  forall s, In s l -> In s enroll \/ In s storages.
Proof.
  revert enroll. induction storages as [| x storages IH]; simpl; intros enroll Hrun s Hs.
  - inversion Hrun; subst. now left.
  - unfold bind at 1, get_osd_data in Hrun. unfold bind at 1, lift in Hrun.
    destruct (_get_osd_id (osd_data st) x) as [r | e]; [| discriminate].
    destruct (IH _ Hrun s Hs) as [Hin | Hin]; [| now right; right].
    destruct (py_not r); [| now left].
    apply in_app_or in Hin. destruct Hin as [Hin | [<- | []]]; [now left | now right; left].
Qed.

Lemma enrollment_set_standalone (enroll : list string) (st : St World) :
  fst (enrollment_set E st) = Ok enroll ->
  forall s, In s enroll -> split_head s = standalone.
Proof.
  unfold enrollment_set, bind.
  destruct (_fetch_filtered_storages E [standalone] st) as [[storages | e] st1] eqn:Hfetch;
    [| discriminate].
  intros Hrun s Hs.
  destruct (enroll_loop_sound _ _ _ _ Hrun s Hs) as [[] | Hin].
  pose proof (fetch_filtered_storages_sound [standalone] storages st) as Hsound.
  rewrite Hfetch in Hsound. specialize (Hsound eq_refl s Hin).
  unfold list_in in Hsound. simpl in Hsound. rewrite orb_false_r in Hsound.
  now apply String.eqb_eq.
Qed.

End Registry.

(** X7.  The detach handler never adds a key to [osd_data], never
    drops one and never writes a record: after it, the keys are the
    same and each value is what it was or [None]. *)
Theorem on_storage_detaching_only_tombstones {World : Type} (E : Env World)
    (full_id : string) (st : St World) :
  let st' := snd (_on_storage_detaching E full_id st) in
  keys (osd_data st') = keys (osd_data st) /\
  forall k, dict_get (osd_data st') k = dict_get (osd_data st) k \/
            dict_get (osd_data st') k = Some None.
Proof.
  apply (frame_on_storage_detaching E only_tombstones (fun _ => true));
    first [ apply only_tombstones_refl | apply only_tombstones_trans
          | apply only_tombstones_external | apply only_tombstones_clean
          | reflexivity ].
Qed.

(** X8.  Every record that is in [osd_data] after the attach handler
    was there before it, or is the record of a storage of the
    [osd-standalone] directive with no DB device. *)
Theorem on_osd_standalone_attached_records {World : Type} (E : Env World)
    (st : St World) (k : Z) (v : OsdRecord) :
  dict_get (osd_data (snd (_on_osd_standalone_attached E st))) k = Some (Some v) ->
  dict_get (osd_data st) k = Some (Some v) \/
  (split_head (disk v) = standalone /\ db v = None).
Proof.
  revert k v.
  apply (frame_on_osd_standalone_attached E only_standalone_records (fun _ => true));
    first [ apply only_standalone_records_refl | apply only_standalone_records_trans
          | apply only_standalone_records_external | apply only_standalone_records_clean
          | reflexivity
          | now apply only_standalone_records_same
          | intros c _ s; now apply only_standalone_records_same
          | intros s s0; now apply only_standalone_records_same
          | idtac ].
  intros st1 enroll Hrun d Hd. apply only_standalone_records_write.
  eapply enrollment_set_standalone; eassumption.
Qed.

Lemma on_osd_standalone_attached_records_witness :
  let st := Scenario.start Scenario.osd5 Scenario.fresh_node in
  let v := Scenario.record "osd-standalone/0" "vdb" in
  dict_get (osd_data (snd (_on_osd_standalone_attached Scenario.env st))) 0 = Some (Some v) /\
  (dict_get (osd_data st) 0 = Some (Some v) \/
   (split_head (disk v) = standalone /\ db v = None)).
Proof.
  split; [reflexivity |].
  exact (on_osd_standalone_attached_records Scenario.env
           (Scenario.start Scenario.osd5 Scenario.fresh_node) 0
           (Scenario.record "osd-standalone/0" "vdb") eq_refl).
Defined.

(** ** Stale cleanup, continued *)

Lemma dict_set_same (d : dict) (k : Z) (v : option OsdRecord) :
  dict_get d k = Some v -> dict_set d k v = d.
Proof.
  induction d as [| [k0 v0] d IH]; simpl; [discriminate |].
  destruct (Z.eqb k0 k); intros H.
  - now inversion H.
  - now rewrite IH.
Qed.

Lemma clean_loop_fixed (osds ks : list Z) (d : dict) :
  (forall a, In a ks -> int_in a osds = false -> dict_get d a = Some None) ->
  clean_loop osds ks d = d.
Proof.
  induction ks as [| a ks IH]; simpl; intros Hnone; [reflexivity |].
  destruct (int_in a osds) eqn:Ha; simpl.
  - apply IH. intros b Hb. apply Hnone. now right.
  - rewrite dict_set_same by (apply Hnone; [now left | assumption]).
    apply IH. intros b Hb. apply Hnone. now right.
Qed.

(** X9.  Cleanup is idempotent: run again against a backend that lists
    the same OSD numbers, it leaves the dictionary as its first run
    left it. *)
Theorem clean_stale_osd_data_idempotent {World : Type} (E : Env World) (st : St World)
    (disks disks' : list ConfiguredDisk) (w1 w2 : World) :
  list_disk_cmd E (world st) = (Ok disks, w1) ->
  list_disk_cmd E w1 = (Ok disks', w2) ->
  map osd disks' = map osd disks ->
  let st1 := snd (_clean_stale_osd_data E st) in
  fst (_clean_stale_osd_data E st1) = Ok tt /\
  osd_data (snd (_clean_stale_osd_data E st1)) = osd_data st1.
Proof.
  intros H1 H2 Hsame st1. subst st1.
  rewrite (clean_stale_osd_data_run E st), H1. simpl.
  rewrite clean_stale_osd_data_run. simpl. rewrite H2. simpl. split; [reflexivity |].
  rewrite Hsame. apply clean_loop_fixed. intros a Ha Hout.
  rewrite keys_clean_loop in Ha by apply incl_refl.
  rewrite dict_get_clean_loop by apply incl_refl.
  apply int_in_spec in Ha. now rewrite Ha, Hout.
Qed.

Lemma clean_stale_osd_data_idempotent_witness :
  let st := Scenario.start Scenario.osd3_osd7 Scenario.only_osd3 in
  let st1 := snd (_clean_stale_osd_data Scenario.env st) in
  list_disk_cmd Scenario.env (world st) =
    (Ok [Scenario.disk_entry 3 "vdb"], Scenario.only_osd3) /\
  fst (_clean_stale_osd_data Scenario.env st1) = Ok tt /\
  osd_data (snd (_clean_stale_osd_data Scenario.env st1)) = osd_data st1.
Proof.
  split; [reflexivity |].
  exact (clean_stale_osd_data_idempotent Scenario.env
           (Scenario.start Scenario.osd3_osd7 Scenario.only_osd3)
           [Scenario.disk_entry 3 "vdb"] [Scenario.disk_entry 3 "vdb"]
           Scenario.only_osd3 Scenario.only_osd3 eq_refl eq_refl eq_refl).
Defined.

(** ** Removal, continued *)

Lemma dict_wf_keys (d d' : dict) : keys d = keys d' -> dict_wf d = dict_wf d'.
Proof.
  revert d'. induction d as [| [k v] d IH]; intros [| [k' v'] d'] H; simpl in *;
    try discriminate; [reflexivity |].
  inversion H; subst. unfold keys in *. rewrite H2. f_equal. now apply IH.
Qed.

(** X10.  After a [remove_osd] that returns, storage names resolve only
    to OSDs that the backend listed after the removal: a removed OSD
    is no longer found by [_get_osd_id]. *)
Theorem remove_osd_then_get_osd_id {World : Type} (E : Env World)
    (osd_num : option Z) (force : bool) (st : St World) (name : string) (k : Z) :
  dict_wf (osd_data st) = true ->
  fst (remove_osd E osd_num force st) = Ok tt ->
  _get_osd_id (osd_data (snd (remove_osd E osd_num force st))) name = Ok (Some k) ->
  exists disks,
    fst (list_disk_cmd E (snd (remove_disk_cmd E osd_num force (world st)))) = Ok disks /\
    In k (map osd disks).
Proof.
  intros Hwf. rewrite remove_osd_run.
  set (st1 := answered st (RemoveDisk osd_num force)
                (snd (remove_disk_cmd E osd_num force (world st)))).
  destruct (fst (remove_disk_cmd E osd_num force (world st))) as [[] | e].
  - rewrite (clean_stale_osd_data_run E st1). simpl.
    destruct (list_disk_cmd E (snd (remove_disk_cmd E osd_num force (world st))))
      as [[disks | e] w]; simpl.
    + intros _ Hfound. exists disks. split; [reflexivity |].
      unfold _get_osd_id in Hfound. apply find_osd_found in Hfound.
      destruct Hfound as [v [x [Hin _]]].
      apply dict_get_in in Hin.
      * rewrite dict_get_clean_loop in Hin by apply incl_refl.
        destruct (int_in k (map osd disks)) eqn:Hk; [now apply int_in_spec |].
        rewrite andb_true_r in Hin.
        destruct (int_in k (keys (osd_data st))) eqn:Hkey; [discriminate |].
        rewrite dict_get_none in Hin; [discriminate |].
        intros Hin'. apply int_in_spec in Hin'. congruence.
      * rewrite <- Hwf. apply dict_wf_keys. apply keys_clean_loop, incl_refl.
    + destruct e; try discriminate. destruct force; [| discriminate].
      match goal with |- context [_clean_stale_osd_data E ?s] =>
        destruct (_clean_stale_osd_data E s) as [[[] | e'] st3] end; discriminate.
  - destruct e; try discriminate. destruct force; [| discriminate].
    destruct (_clean_stale_osd_data E st1) as [[[] | e'] st2]; discriminate.
Qed.

Lemma remove_osd_then_get_osd_id_witness :
  let st := Scenario.start Scenario.osd3_osd7 Scenario.three_osds in
  dict_wf (osd_data st) = true /\
  fst (remove_osd Scenario.env (Some 7) true st) = Ok tt /\
  _get_osd_id (osd_data (snd (remove_osd Scenario.env (Some 7) true st)))
    "osd-standalone/0" = Ok (Some 3) /\
  _get_osd_id (osd_data (snd (remove_osd Scenario.env (Some 7) true st)))
    "osd-standalone/1" = Ok None /\
  exists disks,
    fst (list_disk_cmd Scenario.env
           (snd (remove_disk_cmd Scenario.env (Some 7) true (world st)))) = Ok disks /\
    In 3 (map osd disks).
Proof.
  split; [reflexivity |]. split; [reflexivity |]. split; [reflexivity |].
  split; [reflexivity |].
  exact (remove_osd_then_get_osd_id Scenario.env (Some 7) true
           (Scenario.start Scenario.osd3_osd7 Scenario.three_osds)
           "osd-standalone/0" 3 eq_refl eq_refl eq_refl).
Defined.

(** ** The metadata queries, continued *)

Section MetadataMore.

Context {World : Type} (E : Env World).

(** X11.  When the hook tool answers at the first attempt,
    [juju_storage_get] makes that one attempt and returns the decoded
    answer; an answer that is not JSON is not retried either and comes
    back as [None]. *)
Theorem juju_storage_get_first_answer (storage_id attribute : option string)
    (st : St World) (out : string) (w : World) :
  run E (storage_get_args storage_id attribute) (world st) = (Ok out, w) ->
  juju_storage_get E storage_id attribute st =
    (Ok match json_loads E out with
        | Some j => j
        | None => JNull
        end,
     answered st (Run (storage_get_args storage_id attribute)) w).
Proof.
  intros Hrun. unfold juju_storage_get, retry. rewrite retry_loop_eq.
  unfold try_except at 1, storage_get_once, try_except. rewrite run_json_run, Hrun.
  destruct (json_loads E out); reflexivity.
Qed.

Lemma retry_loop_outcome {A : Type} (f : M World A) (c : call) (w : Z)
    (more : nat) (st : St World) :
  (forall s, calls (snd (f s)) = (calls s ++ [c])%list) ->
  match fst (retry_loop w more f st) with
  | Ok _ =>
      exists n, (n <= more)%nat /\
        calls (snd (retry_loop w more f st)) = (calls st ++ attempts c w n)%list
  | Raise e =>
      e = RetryError /\
      calls (snd (retry_loop w more f st)) = (calls st ++ attempts c w more)%list
  end.
Proof.
  intros Hf. revert st. induction more as [| more IH]; intros st;
    rewrite retry_loop_eq; unfold try_except; specialize (Hf st) as Hst;
    destruct (f st) as [[a | e] s1]; simpl in Hst.
  - exists O. split; [lia | assumption].
  - split; [reflexivity | assumption].
  - exists O. split; [lia | assumption].
  - unfold bind, log_call.
    match goal with |- context [retry_loop w more f ?s] =>
      specialize (IH s); destruct (retry_loop w more f s) as [[a | e'] s2] end;
      simpl in *.
    + destruct IH as [n [Hn Hcalls]]. exists (S n). split; [lia |].
      rewrite Hcalls, Hst. simpl. now rewrite <- !app_assoc.
    + destruct IH as [-> Hcalls]. split; [reflexivity |].
      rewrite Hcalls, Hst. simpl. now rewrite <- !app_assoc.
Qed.

(** X12.  Whatever the hook tool does, [juju_storage_get] makes at most
    ten attempts, five apart, and does not touch [osd_data].  The only
    exception it lets out is [RetryError], after the tenth attempt:
    the error of the tool itself never reaches the caller. *)
Theorem juju_storage_get_outcome (storage_id attribute : option string) (st : St World) :
  let get := Run (storage_get_args storage_id attribute) in
  let st' := snd (juju_storage_get E storage_id attribute st) in
  osd_data st' = osd_data st /\
  match fst (juju_storage_get E storage_id attribute st) with
  | Ok _ => exists n, (n <= 9)%nat /\ calls st' = (calls st ++ attempts get 5 n)%list
  | Raise e => e = RetryError /\ calls st' = (calls st ++ attempts get 5 9)%list
  end.
Proof.
  intros get st'. split.
  - subst st'.
    apply (frame_juju_storage_get E (fun a b => osd_data b = osd_data a) (fun _ => true));
      try reflexivity.
    + intros a b c Hab Hbc. congruence.
    + intros A c f _ s. unfold external. now destruct (f (world s)).
    + intros c _ s. reflexivity.
  - apply (retry_loop_outcome (storage_get_once E storage_id attribute) get 5 9 st).
    intros s. apply storage_get_once_calls.
Qed.

Lemma fetch_filtered_storages_run (directives : list string) (st : St World) :
  _fetch_filtered_storages E directives st =
    match juju_storage_list E None st with
    | (Ok listing, st1) =>
        (match py_iter listing with
         | Ok devices => filter_devices directives devices []
         | Raise e => Raise e
         end, st1)
    | (Raise e, st1) => (Raise e, st1)
    end.
Proof.
  unfold _fetch_filtered_storages, bind.
  destruct (juju_storage_list E None st) as [[listing | e] st1]; [| reflexivity].
  unfold lift at 1. destruct (py_iter listing) as [devices | e]; [| reflexivity].
  apply fetch_loop_run.
Qed.

Lemma juju_storage_list_run (storage_name : option string) (st : St World) :
  juju_storage_list E storage_name st =
    match run E (storage_list_args storage_name) (world st) with
    | (Ok out, w) =>
        (Ok match json_loads E out with
            | Some j => j
            | None => JNull
            end, answered st (Run (storage_list_args storage_name)) w)
    | (Raise ValueError, w) =>
        (Ok JNull, answered st (Run (storage_list_args storage_name)) w)
    | (Raise (OSError errno), w) =>
        (if Z.eqb errno ENOENT then Ok (JList []) else Raise (OSError errno),
         answered st (Run (storage_list_args storage_name)) w)
    | (Raise e, w) => (Raise e, answered st (Run (storage_list_args storage_name)) w)
    end.
Proof.
  unfold juju_storage_list, try_except. rewrite run_json_run.
  destruct (run E _ (world st)) as [[out | e] w].
  - destruct (json_loads E out); reflexivity.
  - destruct e; try reflexivity. simpl. destruct (Z.eqb errno ENOENT); reflexivity.
Qed.

(** X13.  On a node where the [storage-list] tool does not exist (the
    run fails with [ENOENT]) [_fetch_filtered_storages] returns the
    empty list after one attempt; any other [OSError] is raised. *)
Theorem fetch_filtered_storages_no_tool (directives : list string) (st : St World)
    (errno : Z) (w : World) :
  run E ["storage-list"; "--format=json"] (world st) = (Raise (OSError errno), w) ->
  _fetch_filtered_storages E directives st =
    (if Z.eqb errno ENOENT then Ok [] else Raise (OSError errno),
     answered st (Run ["storage-list"; "--format=json"]) w).
Proof.
  intros Hrun. rewrite fetch_filtered_storages_run, juju_storage_list_run.
  change (storage_list_args None) with ["storage-list"; "--format=json"].
  rewrite Hrun. destruct (Z.eqb errno ENOENT); reflexivity.
Qed.

(** X14.  When [storage-list] prints a text that is not JSON, the
    listing is [None] and [_fetch_filtered_storages] raises [TypeError]
    on it: it does not return an empty list. *)
Theorem fetch_filtered_storages_not_json (directives : list string) (st : St World)
    (out : string) (w : World) :
  run E ["storage-list"; "--format=json"] (world st) = (Ok out, w) ->
  json_loads E out = None ->
  _fetch_filtered_storages E directives st =
    (Raise TypeError, answered st (Run ["storage-list"; "--format=json"]) w).
Proof.
  intros Hrun Hjson. rewrite fetch_filtered_storages_run, juju_storage_list_run.
  change (storage_list_args None) with ["storage-list"; "--format=json"].
  now rewrite Hrun, Hjson.
Qed.

Lemma filter_devices_names (directives names filtered : list string) :
  filter_devices directives (map JStr names) filtered =
    Ok (filtered ++ filter (fun s => list_in (split_head s) directives) names)%list.
Proof.
  revert filtered. induction names as [| s names IH]; intros filtered; simpl.
  - now rewrite app_nil_r.
  - rewrite IH. destruct (list_in (split_head s) directives); [| reflexivity].
    now rewrite <- app_assoc.
Qed.

(** X15.  When [storage-list] prints a list of storage names,
    [_fetch_filtered_storages] returns, in the same order, exactly the
    names whose directive is one of [directives]. *)
Theorem fetch_filtered_storages_filters (directives names : list string) (st : St World)
    (out : string) (w : World) :
  run E ["storage-list"; "--format=json"] (world st) = (Ok out, w) ->
  json_loads E out = Some (JList (map JStr names)) ->
  _fetch_filtered_storages E directives st =
    (Ok (filter (fun s => list_in (split_head s) directives) names),
     answered st (Run ["storage-list"; "--format=json"]) w).
Proof.
  intros Hrun Hjson. rewrite fetch_filtered_storages_run, juju_storage_list_run.
  change (storage_list_args None) with ["storage-list"; "--format=json"].
  rewrite Hrun, Hjson. simpl. now rewrite filter_devices_names.
Qed.

End MetadataMore.

Lemma juju_storage_get_first_answer_witness :
  let st := Scenario.start [] Scenario.fresh_node in
  let args := ["storage-get"; "--format=json"; "-s"; "osd-standalone/0"; "location"] in
  run Scenario.env args (world st) = (Ok (Scenario.quoted "/dev/vdb"), Scenario.fresh_node) /\
  juju_storage_get Scenario.env (Some "osd-standalone/0") (Some "location") st =
    (Ok (JStr "/dev/vdb"), answered st (Run args) Scenario.fresh_node) /\
  juju_storage_get Hooks.env_garbled (Some "osd-standalone/0") (Some "location") st =
    (Ok JNull, answered st (Run args) Scenario.fresh_node).
Proof.
  split; [reflexivity |]. split.
  - exact (juju_storage_get_first_answer Scenario.env
             (Some "osd-standalone/0") (Some "location")
             (Scenario.start [] Scenario.fresh_node)
             (Scenario.quoted "/dev/vdb") Scenario.fresh_node eq_refl).
  - exact (juju_storage_get_first_answer Hooks.env_garbled
             (Some "osd-standalone/0") (Some "location")
             (Scenario.start [] Scenario.fresh_node)
             "storage backend busy" Scenario.fresh_node eq_refl).
Defined.

Lemma fetch_filtered_storages_no_tool_witness :
  let st := Scenario.start [] Scenario.fresh_node in
  run Hooks.env_missing ["storage-list"; "--format=json"] (world st) =
    (Raise (OSError ENOENT), Scenario.fresh_node) /\
  _fetch_filtered_storages Hooks.env_missing [standalone] st =
    (Ok [], answered st (Run ["storage-list"; "--format=json"]) Scenario.fresh_node).
Proof.
  split; [reflexivity |].
  exact (fetch_filtered_storages_no_tool Hooks.env_missing [standalone]
           (Scenario.start [] Scenario.fresh_node) ENOENT Scenario.fresh_node eq_refl).
Defined.

Lemma fetch_filtered_storages_not_json_witness :
  let st := Scenario.start [] Scenario.fresh_node in
  run Hooks.env_garbled ["storage-list"; "--format=json"] (world st) =
    (Ok "storage backend busy", Scenario.fresh_node) /\
  json_loads Hooks.env_garbled "storage backend busy" = None /\
  _fetch_filtered_storages Hooks.env_garbled [standalone] st =
    (Raise TypeError, answered st (Run ["storage-list"; "--format=json"]) Scenario.fresh_node).
Proof.
  split; [reflexivity |]. split; [reflexivity |].
  exact (fetch_filtered_storages_not_json Hooks.env_garbled [standalone]
           (Scenario.start [] Scenario.fresh_node)
           "storage backend busy" Scenario.fresh_node eq_refl eq_refl).
Defined.

Lemma fetch_filtered_storages_filters_witness :
  let st := Scenario.start [] Hooks.mixed_node in
  let names := ["osd-standalone/0"; "cache/0"; "osd-standalone/1"] in
  run Scenario.env ["storage-list"; "--format=json"] (world st) =
    (Ok (Scenario.print_list names), Hooks.mixed_node) /\
  json_loads Scenario.env (Scenario.print_list names) = Some (JList (map JStr names)) /\
  _fetch_filtered_storages Scenario.env [standalone] st =
    (Ok ["osd-standalone/0"; "osd-standalone/1"],
     answered st (Run ["storage-list"; "--format=json"]) Hooks.mixed_node).
Proof.
  split; [reflexivity |]. split; [reflexivity |].
  exact (fetch_filtered_storages_filters Scenario.env [standalone]
           ["osd-standalone/0"; "cache/0"; "osd-standalone/1"]
           (Scenario.start [] Hooks.mixed_node)
           (Scenario.print_list ["osd-standalone/0"; "cache/0"; "osd-standalone/1"])
           Hooks.mixed_node eq_refl eq_refl).
Defined.

(** ** Status and deferral *)

Section Quiet.

Context {World : Type} (E : Env World).

Lemma quiet_refl (st : St World) : quiet st st.
Proof. split; reflexivity. Qed.

Lemma quiet_trans (a b c : St World) : quiet a b -> quiet b c -> quiet a c.
Proof. intros [S1 D1] [S2 D2]. split; congruence. Qed.

Lemma quiet_external (A : Type) (c : call) (f : World -> result A * World) :
  true = true -> preserves quiet (external c f).
Proof. intros _ st. unfold external. destruct (f (world st)). split; reflexivity. Qed.

Lemma quiet_log (c : call) : true = true -> preserves quiet (@log_call World c).
Proof. intros _ st. split; reflexivity. Qed.

Lemma quiet_clean : true = true -> preserves quiet (_clean_stale_osd_data E).
Proof.
  intros _ st. rewrite clean_stale_osd_data_run.
  destruct (list_disk_cmd E (world st)) as [[disks | e] w]; split; reflexivity.
Qed.

Lemma quiet_write (disk_name : string) (db_name : option string) :
  keeps_write (@quiet World) disk_name db_name.
Proof. intros o st. split; reflexivity. Qed.

Lemma quiet_enroll_disks_in_batch (disks : list string) :
  preserves quiet (_enroll_disks_in_batch E disks).
Proof.
  unfold _enroll_disks_in_batch.
  apply preserves_bind; [apply quiet_trans | | intros paths].
  - apply preserves_map_m; [apply quiet_refl | apply quiet_trans |].
    intros d _.
    apply (frame_juju_storage_get E quiet (fun _ => true));
      first [ apply quiet_refl | apply quiet_trans | apply quiet_external
            | apply quiet_log | reflexivity ].
  - apply preserves_bind; [apply quiet_trans | now apply quiet_external | intros _].
    apply preserves_for_each; [apply quiet_refl | apply quiet_trans |].
    intros d _.
    apply (frame_save_osd_data E quiet (fun _ => true));
      first [ apply quiet_refl | apply quiet_trans | apply quiet_external
            | apply quiet_log | apply quiet_write | reflexivity ].
Qed.

End Quiet.

(** X16.  The status protocol of the attach handler.  When the handler
    defers, or raises before its guarded block, it sets no status; an
    exception in the guarded block leaves [Enrolling OSDs] as the last
    status set by the handler; only a complete run sets
    [charm is ready] after it.  The event is deferred exactly when the
    service is not ready. *)
Theorem on_osd_standalone_attached_statuses {World : Type} (E : Env World)
    (st : St World) :
  let st' := snd (_on_osd_standalone_attached E st) in
  statuses st' =
    (statuses st ++
     match fst (_on_osd_standalone_attached E st) with
     | Returned =>
         if ready_for_service E (world st)
         then [MaintenanceStatus "Enrolling OSDs"; ActiveStatus "charm is ready"]
         else []
     | RaisedInGuard _ => [MaintenanceStatus "Enrolling OSDs"]
     | Raised _ => []
     end)%list /\
  deferred st' = (if ready_for_service E (world st) then deferred st else true).
Proof.
  unfold _on_osd_standalone_attached.
  destruct (ready_for_service E (world st)); simpl;
    [| split; [now rewrite app_nil_r | reflexivity]].
  assert (Hpre : preserves quiet
            (bind (_clean_stale_osd_data E) (fun _ => enrollment_set E))).
  { apply preserves_bind; [apply quiet_trans | now apply quiet_clean | intros _].
    apply (frame_enrollment_set E quiet (fun _ => true));
      first [ apply quiet_refl | apply quiet_trans | apply quiet_external | reflexivity ]. }
  destruct (Hpre st) as [Hs Hd].
  destruct (bind (_clean_stale_osd_data E) (fun _ => enrollment_set E) st)
    as [[enroll | e] st1]; simpl in *;
    [| split; [now rewrite app_nil_r | assumption]].
  set (s0 := mkSt (osd_data st1) (world st1) (calls st1) (deferred st1)
               (statuses st1 ++ [MaintenanceStatus "Enrolling OSDs"])%list).
  assert (Hrun : attach_guarded E enroll st1 =
            match _enroll_disks_in_batch E enroll s0 with
            | (Ok _, st2) =>
                (Ok tt, mkSt (osd_data st2) (world st2) (calls st2) (deferred st2)
                          (statuses st2 ++ [ActiveStatus "charm is ready"])%list)
            | (Raise e, st2) => (Raise e, st2)
            end).
  { unfold attach_guarded, bind, set_status. fold s0.
    destruct (_enroll_disks_in_batch E enroll s0) as [[[] | e] st2]; reflexivity. }
  unfold guard. rewrite Hrun.
  destruct (quiet_enroll_disks_in_batch E enroll s0) as [Hs2 Hd2].
  destruct (_enroll_disks_in_batch E enroll s0) as [[[] | e] st2]; simpl in *;
    rewrite Hs2, Hd2, Hs, Hd; split; try reflexivity.
  now rewrite <- app_assoc.
Qed.

(** X17.  The detach handler sets no status and never defers: what the
    operator sees after a detach comes from the guard alone. *)
Theorem on_storage_detaching_quiet {World : Type} (E : Env World)
    (full_id : string) (st : St World) :
  let st' := snd (_on_storage_detaching E full_id st) in
  statuses st' = statuses st /\ deferred st' = deferred st.
Proof.
  apply (frame_on_storage_detaching E quiet (fun _ => true));
    first [ apply quiet_refl | apply quiet_trans | apply quiet_external
          | apply quiet_clean | reflexivity ].
Qed.

(** ** Removal and escalation, continued *)

Section Escalation.

Context {World : Type} (E : Env World).

Lemma remove_osd_calls_shape (osd_num : option Z) (force : bool) (st : St World) :
  exists n, (n <= 2)%nat /\
    calls (snd (remove_osd E osd_num force st)) =
      (calls st ++ RemoveDisk osd_num force :: repeat ListDisk n)%list.
Proof.
  rewrite remove_osd_run.
  set (st1 := answered st (RemoveDisk osd_num force)
                (snd (remove_disk_cmd E osd_num force (world st)))).
  assert (Hzero : calls st1 = (calls st ++ RemoveDisk osd_num force :: repeat ListDisk 0)%list)
    by reflexivity.
  assert (Hone : forall s : St World, calls s = (calls st1 ++ [ListDisk])%list ->
            calls s = (calls st ++ RemoveDisk osd_num force :: repeat ListDisk 1)%list).
  { intros s Hs. rewrite Hs. unfold st1, answered. simpl. now rewrite <- app_assoc. }
  assert (Htwo : forall s s2 : St World, calls s2 = (calls st1 ++ [ListDisk])%list ->
            calls s = (calls s2 ++ [ListDisk])%list ->
            calls s = (calls st ++ RemoveDisk osd_num force :: repeat ListDisk 2)%list).
  { intros s s2 H2 Hs. rewrite Hs, H2. unfold st1, answered. simpl.
    now rewrite <- !app_assoc. }
  pose proof (clean_stale_osd_data_calls E st1) as Hc1.
  destruct (fst (remove_disk_cmd E osd_num force (world st))) as [[] | e].
  - destruct (_clean_stale_osd_data E st1) as [[[] | e] st2]; simpl in Hc1.
    + exists 1%nat. split; [lia | now apply Hone].
    + pose proof (clean_stale_osd_data_calls E st2) as Hc2.
      destruct e; try (exists 1%nat; split; [lia | now apply Hone]).
      destruct force; [| exists 1%nat; split; [lia | now apply Hone]].
      destruct (_clean_stale_osd_data E st2) as [[[] | e'] st3]; simpl in Hc2;
        exists 2%nat; (split; [lia | eapply Htwo; eassumption]).
  - destruct e; try (exists 0%nat; split; [lia | exact Hzero]).
    destruct force; [| exists 0%nat; split; [lia | exact Hzero]].
    destruct (_clean_stale_osd_data E st1) as [[[] | e'] st2]; simpl in Hc1;
      exists 1%nat; (split; [lia | now apply Hone]).
Qed.

(** X18.  [remove_osd] sends the removal command exactly once, as its
    first call, and never repeats it: all that can follow are the
    listings of the cleanup, two at most. *)
Theorem remove_osd_calls (osd_num : option Z) (force : bool) (st : St World) :
  exists n, (n <= 2)%nat /\
    calls (snd (remove_osd E osd_num force st)) =
      (calls st ++ RemoveDisk osd_num force :: repeat ListDisk n)%list.
Proof. apply remove_osd_calls_shape. Qed.

(** X19.  The guarded block of the detach handler, once the non-forced
    removal of an OSD has been refused with a safety failure: it sends
    the forced removal exactly once, right after the refused one, and
    never sends the non-forced one again.  It never returns normally:
    it raises the blocking error that names the storage and the OSD
    when the forced [remove_osd] returned, and the error of the forced
    [remove_osd] otherwise. *)
Theorem detach_guarded_escalation (full_id : string) (osd_num : option Z)
    (st : St World) (err : string) :
  fst (remove_disk_cmd E osd_num false (world st)) = Raise (CalledProcessError err) ->
  _is_safety_failure err = true ->
  let st1 := answered st (RemoveDisk osd_num false)
               (snd (remove_disk_cmd E osd_num false (world st))) in
  (exists n, (n <= 2)%nat /\
     calls (snd (detach_guarded E full_id osd_num st)) =
       (calls st ++ RemoveDisk osd_num false :: RemoveDisk osd_num true
                 :: repeat ListDisk n)%list) /\
  fst (detach_guarded E full_id osd_num st) =
    match fst (remove_osd E osd_num true st1) with
    | Ok _ => Raise (BlockedExceptionError (detach_warning full_id osd_num))
    | Raise e => Raise e
    end.
Proof.
  intros Hfail Hsafe st1. unfold detach_guarded, try_except.
  rewrite remove_osd_run, Hfail. simpl. rewrite Hsafe. fold st1.
  unfold bind, raise.
  destruct (remove_osd_calls_shape osd_num true st1) as [n [Hn Hcalls]].
  destruct (remove_osd E osd_num true st1) as [[[] | e] st2]; simpl in *;
    (split; [| reflexivity]); exists n; (split; [assumption |]);
    rewrite Hcalls; unfold st1, answered; simpl; now rewrite <- app_assoc.
Qed.

(** X20.  When there is nothing to enroll the attach handler still goes
    through its guarded block: it sets [Enrolling OSDs], calls
    [enroll_disks_as_osds] with no path, runs no [storage-get], leaves
    [osd_data] as the cleanup left it and, when the backend call
    returned, sets [charm is ready]. *)
Theorem on_osd_standalone_attached_nothing_to_enroll (st st1 : St World) :
  ready_for_service E (world st) = true ->
  bind (_clean_stale_osd_data E) (fun _ => enrollment_set E) st = (Ok [], st1) ->
  _on_osd_standalone_attached E st =
    match enroll_disks_as_osds E [] (world st1) with
    | (Ok _, w) =>
        (Returned,
         mkSt (osd_data st1) w (calls st1 ++ [EnrollDisks []]) (deferred st1)
           (statuses st1 ++ [MaintenanceStatus "Enrolling OSDs";
                             ActiveStatus "charm is ready"]))
    | (Raise e, w) =>
        (RaisedInGuard e,
         mkSt (osd_data st1) w (calls st1 ++ [EnrollDisks []]) (deferred st1)
           (statuses st1 ++ [MaintenanceStatus "Enrolling OSDs"]))
    end.
Proof.
  intros Hready Hset. unfold _on_osd_standalone_attached. rewrite Hready, Hset. simpl.
  unfold guard, attach_guarded, _enroll_disks_in_batch, bind, set_status, external, ret.
  simpl.
  destruct (enroll_disks_as_osds E [] (world st1)) as [[[] | e] w]; simpl;
    [| reflexivity].
  now rewrite <- app_assoc.
Qed.

End Escalation.

Lemma detach_guarded_escalation_witness :
  let st := Scenario.start Scenario.osd5 Scenario.three_osds in
  let st1 := answered st (RemoveDisk (Some 5) false) Scenario.three_osds in
  fst (remove_disk_cmd Scenario.env (Some 5) false (world st)) =
    Raise (CalledProcessError Scenario.refusal) /\
  _is_safety_failure Scenario.refusal = true /\
  (exists n, (n <= 2)%nat /\
     calls (snd (detach_guarded Scenario.env "osd-standalone/2" (Some 5) st)) =
       (calls st ++ RemoveDisk (Some 5) false :: RemoveDisk (Some 5) true
                 :: repeat ListDisk n)%list) /\
  fst (detach_guarded Scenario.env "osd-standalone/2" (Some 5) st) =
    match fst (remove_osd Scenario.env (Some 5) true st1) with
    | Ok _ => Raise (BlockedExceptionError
                       (detach_warning "osd-standalone/2" (Some 5)))
    | Raise e => Raise e
    end.
Proof.
  split; [reflexivity |]. split; [reflexivity |].
  exact (detach_guarded_escalation Scenario.env "osd-standalone/2" (Some 5)
           (Scenario.start Scenario.osd5 Scenario.three_osds)
           Scenario.refusal eq_refl eq_refl).
Defined.

Lemma on_osd_standalone_attached_nothing_to_enroll_witness :
  let st := Scenario.start Scenario.osd3_osd7 Scenario.only_osd3 in
  let st1 := snd (bind (_clean_stale_osd_data Scenario.env)
                    (fun _ => enrollment_set Scenario.env) st) in
  ready_for_service Scenario.env (world st) = true /\
  bind (_clean_stale_osd_data Scenario.env)
    (fun _ => enrollment_set Scenario.env) st = (Ok [], st1) /\
  _on_osd_standalone_attached Scenario.env st =
    (Returned,
     mkSt (osd_data st1) Scenario.only_osd3 (calls st1 ++ [EnrollDisks []]) (deferred st1)
       (statuses st1 ++ [MaintenanceStatus "Enrolling OSDs";
                         ActiveStatus "charm is ready"])).
Proof.
  split; [reflexivity |]. split; [reflexivity |].
  exact (on_osd_standalone_attached_nothing_to_enroll Scenario.env
           (Scenario.start Scenario.osd3_osd7 Scenario.only_osd3)
           (snd (bind (_clean_stale_osd_data Scenario.env)
                   (fun _ => enrollment_set Scenario.env)
                   (Scenario.start Scenario.osd3_osd7 Scenario.only_osd3)))
           eq_refl eq_refl).
Defined.
